(** * cazira: the README collector of [src/main.py]

    A shallow embedding of [process_repositories] and of the three helpers
    it calls ([get_repo_info], [download_readme], [save_readme]), followed by
    the properties of the pipeline.

    The program talks to the network and to the file system and writes a
    log.  The embedding threads an explicit [state] (log, requests sent,
    file system) through a small state-and-exception monad; what the outside
    world answers is given by an [env] record of oracles. *)

From Stdlib Require Import ZArith Ascii String List Bool DecimalString Lia.
From stdpp Require Import gmap strings.
Import ListNotations.

Local Open Scope Z_scope.

(** ** The Python runtime the program relies on *)

Module Py.

(** A [str] is modelled by a [string] holding one code point below 256 per
    character; the methods below follow CPython on that range. *)

Definition code (c : ascii) : N := N_of_ascii c.

(** [str.isspace] on one character: TAB..CR, FS..US, space, NEL, NBSP. *)
Definition is_space (c : ascii) : bool :=
  let n := code c in
  ((9 <=? n) && (n <=? 13) || (28 <=? n) && (n <=? 32)
   || (n =? 133) || (n =? 160))%N.

Fixpoint lstrip (s : string) : string :=
  match s with
  | EmptyString => EmptyString
  | String c s' => if is_space c then lstrip s' else s
  end.

Fixpoint rstrip (s : string) : string :=
  match s with
  | EmptyString => EmptyString
  | String c s' =>
      match rstrip s' with
      | EmptyString => if is_space c then EmptyString else String c EmptyString
      | r => String c r
      end
  end.

(** [s.strip()] *)
Definition strip (s : string) : string := rstrip (lstrip s).

(** [str.lower] on one character: A..Z and the upper-case letters of the
    Latin-1 block (all of C0..DE but the multiplication sign D7). *)
Definition lower_char (c : ascii) : ascii :=
  let n := code c in
  if ((65 <=? n) && (n <=? 90)
      || (192 <=? n) && (n <=? 222) && negb (n =? 215))%N
  then ascii_of_N (n + 32) else c.

Fixpoint map_chars (f : ascii -> ascii) (s : string) : string :=
  match s with
  | EmptyString => EmptyString
  | String c s' => String (f c) (map_chars f s')
  end.

(** [s.lower()] *)
Definition lower (s : string) : string := map_chars lower_char s.

(** [s.replace(old, new)] for one-character [old] and [new]. *)
Definition replace_char (old new : ascii) (s : string) : string :=
  map_chars (fun c => if Ascii.eqb c old then new else c) s.

(** [s.split(sep)] for a one-character [sep]. *)
Fixpoint split_char (sep : ascii) (s : string) : list string :=
  match s with
  | EmptyString => [EmptyString]
  | String c s' =>
      if Ascii.eqb c sep then EmptyString :: split_char sep s'
      else match split_char sep s' with
           | h :: t => String c h :: t
           | [] => [String c EmptyString]
           end
  end.

Fixpoint count_char (c : ascii) (s : string) : nat :=
  match s with
  | EmptyString => O
  | String a s' => (if Ascii.eqb a c then 1 else 0)%nat + count_char c s'
  end.

(** [x in xs] for a list of [str]. *)
Definition str_in (x : string) (xs : list string) : bool :=
  existsb (String.eqb x) xs.

(** [str(n)] for an [int]. *)
Definition str_of_int (z : Z) : string := NilZero.string_of_int (Z.to_int z).

(** [posixpath.join(a, b)] *)
Definition path_join (a b : string) : string :=
  match b with
  | String "/" _ => b
  | _ =>
      if String.eqb a "" then b
      else match String.get (Nat.pred (String.length a)) a with
           | Some "/"%char => a +:+ b
           | _ => a +:+ "/" +:+ b
           end
  end.

(** *** Values *)

(** A [float] is only ever tested for truth and formatted by this program,
    so it is carried by these two observations. *)
Record pyfloat := { float_nonzero : bool; float_repr : string }.

(** The values [response.json()] can return. *)
#[warnings="-register-all"]
Inductive value :=
| PNone
| PBool (b : bool)
| PInt (z : Z)
| PFloat (f : pyfloat)
| PStr (s : string)
| PList (l : list value)
| PDict (d : list (string * value)).

(** [bool(v)] *)
Definition truthy (v : value) : bool :=
  match v with
  | PNone => false
  | PBool b => b
  | PInt z => negb (z =? 0)
  | PFloat f => float_nonzero f
  | PStr s => negb (String.eqb s "")
  | PList l => match l with [] => false | _ => true end
  | PDict d => match d with [] => false | _ => true end
  end.

(** [type(v).__name__] *)
Definition type_name (v : value) : string :=
  match v with
  | PNone => "NoneType"
  | PBool _ => "bool"
  | PInt _ => "int"
  | PFloat _ => "float"
  | PStr _ => "str"
  | PList _ => "list"
  | PDict _ => "dict"
  end.

(** Key lookup in a [dict], kept as the list of its items (the keys of a
    [dict] are distinct). *)
Fixpoint dict_lookup (k : string) (d : list (string * value)) : option value :=
  match d with
  | [] => None
  | (k', v) :: d' => if String.eqb k k' then Some v else dict_lookup k d'
  end.

(** *** Exceptions *)

Inductive exn_class :=
| ValueError | AttributeError | RequestException | JSONDecodeError | OSError
| FileExistsError.

(** An exception object; [exn_msg] is its [str()]. *)
Record exn := Exn { exn_cls : exn_class; exn_msg : string }.

Definition no_attribute (v : value) (attr : string) : exn :=
  Exn AttributeError
      ("'" +:+ type_name v +:+ "' object has no attribute '" +:+ attr +:+ "'").

(** [v.get(k, default)]: only a [dict] has the method. *)
Definition get_method (v : value) (k : string) (default : value) : exn + value :=
  match v with
  | PDict d => inr (match dict_lookup k d with Some x => x | None => default end)
  | _ => inl (no_attribute v "get")
  end.

(** [v.lower()]: only a [str] has the method. *)
Definition lower_method (v : value) : exn + string :=
  match v with
  | PStr s => inr (lower s)
  | _ => inl (no_attribute v "lower")
  end.

(** *** [repr] and [str] of a value, as an f-string field formats it *)

Definition hex_digit (n : N) : ascii :=
  if (n <? 10)%N then ascii_of_N (48 + n) else ascii_of_N (87 + n).

Definition contains_char (c : ascii) (s : string) : bool :=
  negb (Nat.eqb (count_char c s) 0).

Definition printable (c : ascii) : bool :=
  let n := code c in
  ((32 <=? n) && (n <=? 126) || (161 <=? n) && negb (n =? 173))%N.

Definition backslash : ascii := "092"%char.
Definition dquote : ascii := "034"%char.

Definition escape_char (quote c : ascii) : string :=
  if Ascii.eqb c backslash then String backslash (String backslash "")
  else if Ascii.eqb c quote then String backslash (String quote "")
  else if (code c =? 9)%N then String backslash "t"
  else if (code c =? 10)%N then String backslash "n"
  else if (code c =? 13)%N then String backslash "r"
  else if printable c then String c ""
  else String backslash
         (String "x" (String (hex_digit (code c / 16))
                        (String (hex_digit (code c mod 16)) ""))).

Fixpoint escape (quote : ascii) (s : string) : string :=
  match s with
  | EmptyString => EmptyString
  | String c s' => escape_char quote c +:+ escape quote s'
  end.

Definition repr_str (s : string) : string :=
  let quote : ascii :=
    if contains_char "'" s && negb (contains_char dquote s) then dquote
    else "'"%char in
  String quote (escape quote s) +:+ String quote "".

Fixpoint join (sep : string) (l : list string) : string :=
  match l with
  | [] => ""
  | [x] => x
  | x :: l' => x +:+ sep +:+ join sep l'
  end.

Fixpoint repr (v : value) : string :=
  match v with
  | PNone => "None"
  | PBool b => if b then "True" else "False"
  | PInt z => str_of_int z
  | PFloat f => float_repr f
  | PStr s => repr_str s
  | PList l => "[" +:+ join ", " (List.map repr l) +:+ "]"
  | PDict d =>
      "{" +:+ join ", " (List.map (fun '(k, x) => repr_str k +:+ ": " +:+ repr x) d)
          +:+ "}"
  end.

(** [str(v)], which is what [f"{v}"] inserts. *)
Definition str (v : value) : string :=
  match v with
  | PStr s => s
  | _ => repr v
  end.

End Py.

(** ** Paths, as [os.makedirs] takes them apart *)

Module Os.

(** [s.rstrip("/")] *)
Fixpoint rstrip_sep (s : string) : string :=
  match s with
  | EmptyString => EmptyString
  | String c s' =>
      match rstrip_sep s' with
      | EmptyString => if Ascii.eqb c "/" then EmptyString else String c EmptyString
      | r => String c r
      end
  end.

(** [p[:i], p[i:]] for [i = p.rfind("/") + 1] *)
Fixpoint cut_after_last_sep (p : string) : string * string :=
  match p with
  | EmptyString => (EmptyString, EmptyString)
  | String c p' =>
      let (head, tail) := cut_after_last_sep p' in
      if negb (String.eqb head "") then (String c head, tail)
      else if Ascii.eqb c "/" then (String c "", tail)
      else ("", String c tail)
  end.

(** [posixpath.split(p)]: the head loses its trailing slashes unless it is
    made of slashes only. *)
Definition path_split (p : string) : string * string :=
  let (head, tail) := cut_after_last_sep p in
  if negb (String.eqb head "") && negb (String.eqb (rstrip_sep head) "")
  then (rstrip_sep head, tail)
  else (head, tail).

(** [head, tail = path.split(name); if not tail: head, tail = path.split(head)] *)
Definition parent_and_name (name : string) : string * string :=
  let (head, tail) := path_split name in
  if String.eqb tail "" then path_split head else (head, tail).

End Os.

(** ** The outside world: network, file system, log *)

Module World.
Import Py.

(** The [logging] levels the program uses. *)
Inductive level := DEBUG | INFO | WARNING | ERROR.

Definition level_eqb (a b : level) : bool :=
  match a, b with
  | DEBUG, DEBUG | INFO, INFO | WARNING, WARNING | ERROR, ERROR => true
  | _, _ => false
  end.

(** [requests.get(url, headers=headers)] *)
Record request := { url : string; headers : list (string * string) }.

(** What the program reads of a [requests.Response]; [json] is the outcome
    of [response.json()], which raises on a body that is not JSON. *)
Record response := { status_code : Z; text : string; json : exn + value }.

(** The HTTP call either returns a response or raises (connection refused,
    DNS failure, time-out, ...). *)
Inductive http_result :=
| Responded (r : response)
| Failed (e : exn).

(** Directories that exist, and the text of each file, under the paths the
    program names them by.  What the handlers of the logger write is not
    among [files]. *)
Record filesystem := { dirs : gset string; files : gmap string string }.

(** [with open(path, "w") as f: f.write(content)] either writes the file,
    or fails in [open] (nothing changes), or fails while writing (the file is
    left with part of the content). *)
Inductive write_outcome :=
| Written
| OpenError (e : exn)
| WriteError (partial : string) (e : exn).

(** The answers of the outside world.  The network may answer differently
    on each call, so it sees the requests sent so far.  [makedirs_error] is
    the error, if any, of creating one directory ([os.mkdir], which
    [os.makedirs] calls for each directory it has to make). *)
Record env := {
  requests_get : list request -> request -> http_result;
  makedirs_error : filesystem -> string -> option exn;
  open_write : filesystem -> string -> string -> write_outcome
}.

Record state := {
  st_log : list (level * string);
  st_sent : list request;
  st_fs : filesystem
}.

(** *** State and exceptions *)

Inductive result (A : Type) :=
| Val (a : A) (s : state)
| Raise (e : exn) (s : state).
Arguments Val {A} a s.
Arguments Raise {A} e s.

Definition M (A : Type) : Type := state -> result A.

#[export] Instance M_ret : MRet M := fun A a s => Val a s.

#[export] Instance M_bind : MBind M := fun A B f c s =>
  match c s with
  | Val a s' => f a s'
  | Raise e s' => Raise e s'
  end.

Definition raise {A} (e : exn) : M A := fun s => Raise e s.

(** A Python expression that returns or raises. *)
Definition lift {A} (r : exn + A) : M A :=
  match r with
  | inl e => raise e
  | inr a => mret a
  end.

(** [try: body / except Exception as e: handler(e)] *)
Definition try_except {A} (body : M A) (handler : exn -> M A) : M A := fun s =>
  match body s with
  | Val a s' => Val a s'
  | Raise e s' => handler e s'
  end.

(** The state a computation leaves, returned or raised. *)
Definition final {A} (r : result A) : state :=
  match r with
  | Val _ s => s
  | Raise _ s => s
  end.

Definition raised {A} (r : result A) : option exn :=
  match r with
  | Val _ _ => None
  | Raise e _ => Some e
  end.

Definition add_log (entries : list (level * string)) (s : state) : state :=
  {| st_log := st_log s ++ entries; st_sent := st_sent s; st_fs := st_fs s |}.

Definition add_sent (rq : request) (s : state) : state :=
  {| st_log := st_log s; st_sent := st_sent s ++ [rq]; st_fs := st_fs s |}.

Definition with_fs (fs : filesystem) (s : state) : state :=
  {| st_log := st_log s; st_sent := st_sent s; st_fs := fs |}.

(** [logger.<level>(msg)] *)
Definition log (l : level) (msg : string) : M unit := fun s =>
  Val tt (add_log [(l, msg)] s).

(** The records of one level in a log. *)
Definition at_level (l : level) (lg : list (level * string)) : list string :=
  List.map snd (List.filter (fun r => level_eqb (fst r) l) lg).

Section Effects.
Context (E : env).

(** [requests.get(url, headers=headers)]: the request is sent, then answered
    or not. *)
Definition get (rq : request) : M response := fun s =>
  match requests_get E (st_sent s) rq with
  | Responded r => Val r (add_sent rq s)
  | Failed e => Raise e (add_sent rq s)
  end.

(** [os.path.exists(path)] *)
Definition path_exists (path : string) (fs : filesystem) : bool :=
  bool_decide (path ∈ dirs fs) || bool_decide (is_Some (files fs !! path)).

Definition os_path_exists (path : string) : M bool := fun s =>
  Val (path_exists path (st_fs s)) s.

Definition add_dir (path : string) (fs : filesystem) : filesystem :=
  {| dirs := {[path]} ∪ dirs fs; files := files fs |}.

Definition is_file_exists (e : exn) : bool :=
  match exn_cls e with
  | FileExistsError => true
  | _ => false
  end.

(** [os.mkdir(name)], answered by [mk]. *)
Definition mkdir (mk : filesystem -> string -> option exn) (name : string)
    (fs : filesystem) : option exn * filesystem :=
  match mk fs name with
  | Some e => (Some e, fs)
  | None => (None, add_dir name fs)
  end.

(** The body of [os.makedirs(name)] (with [exist_ok=False]): a missing
    parent is made first, by the same means, and a [FileExistsError] from
    there is passed over; a name ending in [/.] is done once its parent is;
    then [name] itself is made.  The exception, if any, comes with the
    directories made before it.  [fuel] bounds the recursion, which goes to
    a shorter path each time. *)
Fixpoint makedirs_from (fuel : nat) (mk : filesystem -> string -> option exn)
    (name : string) (fs : filesystem) : option exn * filesystem :=
  let (head, tail) := Os.parent_and_name name in
  let after_parent fs1 :=
    if String.eqb tail "." then (None, add_dir name fs1) else mkdir mk name fs1 in
  match fuel with
  | O => mkdir mk name fs
  | S fuel' =>
      if negb (String.eqb head "") && negb (String.eqb tail "")
         && negb (path_exists head fs)
      then match makedirs_from fuel' mk head fs with
           | (Some e, fs1) =>
               if is_file_exists e then after_parent fs1 else (Some e, fs1)
           | (None, fs1) => after_parent fs1
           end
      else mkdir mk name fs
  end.

Definition makedirs (mk : filesystem -> string -> option exn) (name : string)
    (fs : filesystem) : option exn * filesystem :=
  makedirs_from (String.length name) mk name fs.

(** The file system once [os.makedirs(name)] has returned: [name] and every
    directory on the way to it exist. *)
Definition made (name : string) (fs : filesystem) : filesystem :=
  snd (makedirs (fun _ _ => None) name fs).

(** [os.makedirs(path)]: an exception comes with the directories made
    before it; on return the path and its missing parents exist (also a
    parent whose creation was answered with [FileExistsError]: it is there,
    made by someone else). *)
Definition os_makedirs (path : string) : M unit := fun s =>
  match makedirs (makedirs_error E) path (st_fs s) with
  | (Some e, fs) => Raise e (with_fs fs s)
  | (None, _) => Val tt (with_fs (made path (st_fs s)) s)
  end.

Definition set_file (path content : string) (fs : filesystem) : filesystem :=
  {| dirs := dirs fs; files := <[path := content]> (files fs) |}.

(** [with open(path, "w", encoding="utf-8") as f: f.write(content)] *)
Definition write_file (path content : string) : M unit := fun s =>
  match open_write E (st_fs s) path content with
  | Written => Val tt (with_fs (set_file path content (st_fs s)) s)
  | OpenError e => Raise e s
  | WriteError partial e => Raise e (with_fs (set_file path partial (st_fs s)) s)
  end.

End Effects.
End World.

(** ** The program: [src/main.py] *)

Module Main.
Import Py World.

Definition GITHUB_API_URL : string := "https://api.github.com/repos/".
Definition GITHUB_RAW_URL : string := "https://raw.githubusercontent.com/".

Definition ALLOWED_LICENSES : list string :=
  ["mit license"; "apache license 2.0"; "bsd license"].

(** [headers = {}; if token: headers["Authorization"] = f"token {token}"] *)
Definition auth_headers (token : option string) : list (string * string) :=
  match token with
  | Some t => if String.eqb t "" then [] else [("Authorization", "token " +:+ t)]
  | None => []
  end.

(** The request [get_repo_info] sends. *)
Definition info_request (owner repo : string) (token : option string) : request :=
  {| url := GITHUB_API_URL +:+ owner +:+ "/" +:+ repo;
     headers := auth_headers token |}.

(** The request [download_readme] sends. *)
Definition readme_request (owner repo : string) (default_branch : value)
    (token : option string) : request :=
  {| url := GITHUB_RAW_URL +:+ owner +:+ "/" +:+ repo +:+ "/"
            +:+ Py.str default_branch +:+ "/README.md";
     headers := auth_headers token |}.

(** [sanitized_filename = filename.replace("/", "_")] *)
Definition sanitize (filename : string) : string := replace_char "/" "_" filename.

(** [file_path] of [save_readme]. *)
Definition file_path (directory filename : string) : string :=
  path_join directory (sanitize filename +:+ ".md").

(** The license gate of [process_repositories]:
    [license_name.lower() in ALLOWED_LICENSES]. *)
Definition license_allowed (name : string) : bool :=
  str_in (lower name) ALLOWED_LICENSES.

Section Program.
Context (E : env).

(** [get_repo_info]; Python's [None] and a JSON [null] are the same value. *)
Definition get_repo_info (owner repo : string) (token : option string) : M value :=
  let rq := info_request owner repo token in
  log DEBUG ("Fetching data from URL: " +:+ url rq) ;;
  response ← get E rq;
  if status_code response =? 200 then
    log INFO ("Successfully fetched data for repository: " +:+ owner +:+ "/" +:+ repo) ;;
    lift (json response)
  else
    log ERROR ("Failed to fetch data for repository: " +:+ owner +:+ "/" +:+ repo
               +:+ ". Status Code: " +:+ str_of_int (status_code response)
               +:+ ". Response: " +:+ text response) ;;
    mret PNone.

(** [download_readme] *)
Definition download_readme (owner repo : string) (default_branch : value)
    (token : option string) : M (option string) :=
  let rq := readme_request owner repo default_branch token in
  log DEBUG ("Downloading README.md from URL: " +:+ url rq) ;;
  response ← get E rq;
  if status_code response =? 200 then
    log INFO ("Successfully downloaded README.md for repository: "
              +:+ owner +:+ "/" +:+ repo) ;;
    mret (Some (text response))
  else
    log ERROR ("Failed to download README.md for repository: " +:+ owner +:+ "/"
               +:+ repo +:+ ". Status Code: " +:+ str_of_int (status_code response)) ;;
    mret None.

(** [save_readme] *)
Definition save_readme (content filename directory : string) : M unit :=
  present ← os_path_exists directory;
  (if negb present
   then os_makedirs E directory ;; log DEBUG ("Created directory: " +:+ directory)
   else mret tt) ;;
  let path := file_path directory filename in
  try_except
    (write_file E path content ;;
     log INFO ("README.md saved: " +:+ path))
    (fun e => log ERROR ("Failed to save README.md file " +:+ path
                         +:+ ". Error: " +:+ exn_msg e)).

(** The body of the [for] loop of [process_repositories]; returning is
    [continue]. *)
Definition process_repository (output_dir : string) (token : option string)
    (full_repo : string) : M unit :=
  let full_repo := strip full_repo in
  if String.eqb full_repo "" then
    log WARNING "Encountered empty repository entry. Skipping."
  else
    match split_char "/" full_repo with
    | [owner; repo] =>
        log DEBUG ("Processing repository: Owner='" +:+ owner +:+ "', Repo='"
                   +:+ repo +:+ "'") ;;
        repo_data ← get_repo_info owner repo token;
        if negb (truthy repo_data) then
          log WARNING ("Skipping repository '" +:+ full_repo
                       +:+ "' due to failed data retrieval.")
        else
          license_info ← lift (get_method repo_data "license" PNone);
          if negb (truthy license_info) then
            log WARNING ("Repository '" +:+ full_repo
                         +:+ "' does not have a license. Skipping.")
          else
            name ← lift (get_method license_info "name" (PStr ""));
            license_name ← lift (lower_method name);
            if negb (str_in license_name ALLOWED_LICENSES) then
              log WARNING ("Repository '" +:+ full_repo +:+ "' has a license '"
                           +:+ license_name +:+ "' which is not allowed. Skipping.")
            else
              default_branch ← lift (get_method repo_data "default_branch" (PStr "master"));
              readme_content ← download_readme owner repo default_branch token;
              match readme_content with
              | Some (String c r) => save_readme (String c r) repo output_dir
              | _ =>
                  log WARNING ("Repository '" +:+ full_repo
                               +:+ "' does not have a README.md or it could not be downloaded.")
              end
    | _ =>
        log ERROR ("Invalid repository format: '" +:+ full_repo
                   +:+ "'. Expected 'owner/repo'. Skipping.")
    end.

(** [process_repositories]: an exception leaving the body leaves the loop. *)
Fixpoint process_repositories (repos : list string) (output_dir : string)
    (token : option string) : M unit :=
  match repos with
  | [] => mret tt
  | full_repo :: rest =>
      process_repository output_dir token full_repo ;;
      process_repositories rest output_dir token
  end.

End Program.
End Main.

(** ** Vocabulary of the statements *)

Import Py World Main.

(** [repo_data.get("default_branch", "master")] on a [dict]. *)
Definition default_branch (d : list (string * value)) : value :=
  match dict_lookup "default_branch" d with
  | Some b => b
  | None => PStr "master"
  end.

(** The file system [save_readme] writes to once its directory check and
    [os.makedirs] are through. *)
Definition ready (directory : string) (fs : filesystem) : filesystem :=
  if path_exists directory fs then fs else made directory fs.

(** [os.makedirs] is either not called or does not raise. *)
Definition directory_ok (E : env) (directory : string) (fs : filesystem) : Prop :=
  path_exists directory fs = false ->
  fst (makedirs (makedirs_error E) directory fs) = None.

(** The loop goes on with the entries after [full_repo]. *)
Definition continues (E : env) (output_dir : string) (token : option string)
    (full_repo : string) (s : state) : Prop :=
  forall rest,
    process_repositories E (full_repo :: rest) output_dir token s
    = process_repositories E rest output_dir token
        (final (process_repository E output_dir token full_repo s)).

(** The body skips the entry and says why at error level: it returns, no
    file changes, one error record is logged, and the loop goes on. *)
Definition skipped_with_error (E : env) (output_dir : string)
    (token : option string) (full_repo : string) (s : state) : Prop :=
  let res := process_repository E output_dir token full_repo s in
  raised res = None
  /\ st_fs (final res) = st_fs s
  /\ (exists new msg,
        st_log (final res) = st_log s ++ new /\ at_level ERROR new = [msg])
  /\ continues E output_dir token full_repo s.

(** The body asks for the README right after the metadata, and sends nothing
    else. *)
Definition requests_readme (E : env) (output_dir : string) (token : option string)
    (full_repo owner repo : string) (d : list (string * value)) (s : state) : Prop :=
  st_sent (final (process_repository E output_dir token full_repo s))
  = st_sent s ++ [info_request owner repo token;
                  readme_request owner repo (default_branch d) token].

(** The body turns the repository down for its license: it returns with the
    metadata request as its only request and no file touched, its one warning
    quotes the license name as [shown], and the loop goes on. *)
Definition rejects_license (E : env) (output_dir : string) (token : option string)
    (full_repo owner repo shown : string) (s : state) : Prop :=
  let res := process_repository E output_dir token full_repo s in
  raised res = None
  /\ st_sent (final res) = st_sent s ++ [info_request owner repo token]
  /\ st_fs (final res) = st_fs s
  /\ (exists new,
        st_log (final res) = st_log s ++ new
        /\ at_level WARNING new
           = ["Repository '" +:+ strip full_repo +:+ "' has a license '"
              +:+ shown +:+ "' which is not allowed. Skipping."])
  /\ continues E output_dir token full_repo s.

(** ** Concrete worlds, for examples *)

Module Example.

Definition st0 : state :=
  {| st_log := []; st_sent := []; st_fs := {| dirs := ∅; files := ∅ |} |}.

(** A world that answers every metadata request with [meta], every other
    request with [readme], creates directories, and treats every write as
    [w]. *)
Definition world (meta readme : http_result) (w : write_outcome) : env :=
  {| requests_get := fun _ rq =>
       if String.prefix GITHUB_API_URL (url rq) then meta else readme;
     makedirs_error := fun _ _ => None;
     open_write := fun _ _ _ => w |}.

Definition html (status : Z) (body : string) : http_result :=
  Responded {| status_code := status; text := body;
               json := inl (Exn JSONDecodeError "Expecting value") |}.

Definition document (body : string) (doc : value) : http_result :=
  Responded {| status_code := 200; text := body; json := inr doc |}.

Definition unreachable : http_result :=
  Failed (Exn RequestException "Connection refused").

Definition disk_full : exn := Exn OSError "[Errno 28] No space left on device".

Definition mit : list (string * value) :=
  [("license", PDict [("key", PStr "mit"); ("name", PStr "MIT License")]);
   ("default_branch", PStr "main")].

Definition mit_no_branch : list (string * value) :=
  [("license", PDict [("name", PStr "MIT License")])].

Definition mit_trailing_space : list (string * value) :=
  [("license", PDict [("name", PStr "MIT License ")]);
   ("default_branch", PStr "main")].

Definition unlicensed : list (string * value) :=
  [("name", PStr "Hello-World"); ("default_branch", PStr "main")].

Definition nameless_license : list (string * value) :=
  [("license", PDict [("key", PStr "other")])].

Definition empty_license : list (string * value) :=
  [("license", PDict [])].

End Example.

(** ** Start-up: [configure_logger] *)

Module Startup.
Import Py World.

(** [str.upper] on one character, as code points: it leaves the range below
    256 for the micro sign and for y with diaeresis, and gives two
    characters for the sharp s. *)
Definition upper_char (c : ascii) : list N :=
  let n := code c in
  (if (97 <=? n) && (n <=? 122)
      || (224 <=? n) && (n <=? 254) && negb (n =? 247) then [n - 32]
   else if n =? 223 then [83; 83]
   else if n =? 181 then [924]
   else if n =? 255 then [376]
   else [n])%N.

(** [s.upper()] *)
Fixpoint upper (s : string) : list N :=
  match s with
  | EmptyString => []
  | String c s' => upper_char c ++ upper s'
  end.

Fixpoint codes (s : string) : list N :=
  match s with
  | EmptyString => []
  | String c s' => code c :: codes s'
  end.

(** The attributes of the [logging] module whose name has no lower-case
    letter and whose value is an [int]: the level constants. *)
Definition LEVELS : list (string * Z) :=
  [("CRITICAL", 50); ("FATAL", 50); ("ERROR", 40); ("WARNING", 30);
   ("WARN", 30); ("INFO", 20); ("DEBUG", 10); ("NOTSET", 0)].

Definition codes_eqb (a b : list N) : bool :=
  bool_decide (a = b).

(** [getattr(logging, name, None)] when it is an [int]; [name] comes out of
    [upper], so it has no lower-case letter. *)
Fixpoint int_attribute (name : list N) (table : list (string * Z)) : option Z :=
  match table with
  | [] => None
  | (k, v) :: table' =>
      if codes_eqb name (codes k) then Some v else int_attribute name table'
  end.

(** A handler of the logger, with the format string of its formatter. *)
Inductive handler :=
| RotatingFileHandler (filename : string) (maxBytes backupCount : Z)
    (formatter : option string)
| StreamHandler (formatter : option string).

(** [handler.setFormatter(formatter)] *)
Definition setFormatter (fmt : string) (h : handler) : handler :=
  match h with
  | RotatingFileHandler f m b _ => RotatingFileHandler f m b (Some fmt)
  | StreamHandler _ => StreamHandler (Some fmt)
  end.

(** The module-level [logger], and the program's state with it.  What the
    handlers write, the log file included, is not part of [files]: the
    records are in [st_log]. *)
Record logger_state := { level : Z; handlers : list handler }.

Record process := { world : state; logger : logger_state }.

(** The outside world with the answer to opening the log file. *)
Record host := {
  host_env : env;
  open_log_error : filesystem -> string -> option exn
}.

Inductive outcome :=
| Done (p : process)
| Thrown (e : exn) (p : process).

Definition after (o : outcome) : process :=
  match o with
  | Done p => p
  | Thrown _ p => p
  end.

Definition thrown (o : outcome) : option exn :=
  match o with
  | Done _ => None
  | Thrown e _ => Some e
  end.

(** [os.makedirs(path, exist_ok=True)]: a directory that is there is fine. *)
Definition makedirs_exist_ok (E : env) (path : string) (fs : filesystem)
    : exn + filesystem :=
  if bool_decide (path ∈ dirs fs) then inr fs
  else match makedirs_error E fs path with
       | Some e => inl e
       | None => inr (add_dir path fs)
       end.

(** [configure_logger] *)
Definition configure_logger (H : host) (log_level : string) (p : process)
    : outcome :=
  match int_attribute (upper log_level) LEVELS with
  | None => Thrown (Exn ValueError ("Invalid log level: " +:+ log_level)) p
  | Some numeric_level =>
      let p1 := {| world := world p;
                   logger := {| level := numeric_level;
                                handlers := handlers (logger p) |} |} in
      match makedirs_exist_ok (host_env H) "logs" (st_fs (world p1)) with
      | inl e => Thrown e p1
      | inr fs =>
          let p2 := {| world := with_fs fs (world p1); logger := logger p1 |} in
          match open_log_error H fs "logs/cazira.log" with
          | Some e => Thrown e p2
          | None =>
              let file_handler :=
                RotatingFileHandler "logs/cazira.log" (5 * 1024 * 1024) 5 None in
              let console_handler := StreamHandler None in
              let formatter := "%(asctime)s - %(levelname)s - %(message)s" in
              let file_handler := setFormatter formatter file_handler in
              let console_handler := setFormatter formatter console_handler in
              Done {| world := world p2;
                      logger := {| level := level (logger p2);
                                   handlers := [] ++ [file_handler]
                                               ++ [console_handler] |} |}
          end
      end
  end.

(** The same name up to the case of its letters. *)
Definition same_letters (a b : string) : Prop := lower a = lower b.

(** All characters, for proofs by enumeration. *)
Definition all_ascii : list ascii := List.map ascii_of_nat (seq 0 256).

(** Whenever [c] and the capital letter [a] agree in lower case, [c] is [a]
    in upper case. *)
Definition upper_agrees (c a : ascii) : bool :=
  negb (Ascii.eqb (lower_char c) (lower_char a))
  || codes_eqb (upper_char c) [code a].

Definition capitals : list ascii :=
  List.map ascii_of_nat (seq 65 26).

(** A fresh process: nothing logged or sent, an empty file system, the
    logger as [logging.getLogger] makes it. *)
Definition fresh : process :=
  {| world := {| st_log := []; st_sent := [];
                 st_fs := {| dirs := ∅; files := ∅ |} |};
     logger := {| level := 0; handlers := [] |} |}.

(** A host on which everything works, and one with a read-only disk. *)
Definition working : host :=
  {| host_env := {| requests_get := fun _ _ =>
                      Failed (Exn RequestException "Connection refused");
                    makedirs_error := fun _ _ => None;
                    open_write := fun _ _ _ => Written |};
     open_log_error := fun _ _ => None |}.

Definition locked : host :=
  {| host_env := {| requests_get := fun _ _ =>
                      Failed (Exn RequestException "Connection refused");
                    makedirs_error := fun _ _ =>
                      Some (Exn OSError "[Errno 30] Read-only file system: 'logs'");
                    open_write := fun _ _ _ =>
                      OpenError (Exn OSError "[Errno 30] Read-only file system") |};
     open_log_error := fun _ _ =>
       Some (Exn OSError "[Errno 30] Read-only file system") |}.

End Startup.

(** ** Vocabulary of the further statements *)

(** An exception leaves the body and the loop: whatever follows
    [full_repo] in the list is not processed. *)
Definition aborts (E : env) (output_dir : string) (token : option string)
    (full_repo : string) (s : state) (e : exn) : Prop :=
  forall rest,
    process_repositories E (full_repo :: rest) output_dir token s
    = Raise e (final (process_repository E output_dir token full_repo s)).

(** Nothing is taken back: the log and the list of requests only grow, and
    no directory or file disappears. *)
Definition extends (s s' : state) : Prop :=
  (exists lg, st_log s' = st_log s ++ lg)
  /\ (exists rqs, st_sent s' = st_sent s ++ rqs)
  /\ dirs (st_fs s) ⊆ dirs (st_fs s')
  /\ (forall p, is_Some (files (st_fs s) !! p) -> is_Some (files (st_fs s') !! p)).

(** A request to one of the two GitHub hosts, with the headers [token]
    gives. *)
Definition github_request (token : option string) (rq : request) : Prop :=
  headers rq = auth_headers token
  /\ (String.prefix GITHUB_API_URL (url rq) = true
      \/ String.prefix GITHUB_RAW_URL (url rq) = true).

(** The paths [save_readme] can be asked to write for a list of entries: one
    for each entry of the form owner/repo. *)
Definition saved_paths (output_dir : string) (repos : list string) : list string :=
  flat_map (fun full_repo =>
              match split_char "/" (strip full_repo) with
              | [_; repo] => [file_path output_dir repo]
              | _ => []
              end) repos.

(** [d] is [name] or what [name] starts with. *)
Definition leading_part (d name : string) : Prop :=
  exists rest, name = d +:+ rest.

(** The world [E] with another answer to what [os.makedirs] asks for. *)
Definition with_makedirs (E : env) (f : filesystem -> string -> option exn) : env :=
  {| requests_get := requests_get E; makedirs_error := f;
     open_write := open_write E |}.

(** Two states that differ in the log at most. *)
Definition same_world (s t : state) : Prop :=
  st_sent s = st_sent t /\ st_fs s = st_fs t.

(** The entries of the form owner/repo: the ones for which
    [owner, repo = full_repo.split("/")] does not raise. *)
Definition well_formed (full_repo : string) : bool :=
  Nat.eqb (length (split_char "/" (strip full_repo))) 2.

(** More concrete answers. *)
Module Sample.

(** What the API answers for a repository without a license file. *)
Definition null_license : list (string * value) :=
  [("name", PStr "Hello-World"); ("license", PNone);
   ("default_branch", PStr "main")].

Definition gpl : list (string * value) :=
  [("license", PDict [("key", PStr "gpl-3.0");
                      ("name", PStr "GNU General Public License v3.0")]);
   ("default_branch", PStr "main")].

Definition license_as_text : list (string * value) :=
  [("license", PStr "MIT License")].

Definition null_name : list (string * value) :=
  [("license", PDict [("key", PStr "other"); ("name", PNone)])].

Definition develop : list (string * value) :=
  [("license", PDict [("name", PStr "MIT License")]);
   ("default_branch", PStr "release/1.x")].

(** A 200 answer carrying the JSON value [v], and the world that gives it to
    every metadata request (README requests get a 404). *)
Definition answer (v : value) : response :=
  {| status_code := 200; text := "{}"; json := inr v |}.

Definition serving (v : value) : env :=
  Example.world (Responded (answer v)) (Example.html 404 "404: Not Found") Written.

(** A 200 answer whose body is a page, not JSON. *)
Definition page : response :=
  {| status_code := 200; text := "<html></html>";
     json := inl (Exn JSONDecodeError "Expecting value: line 1 column 1 (char 0)") |}.

Definition read_only : exn := Exn OSError "[Errno 30] Read-only file system: 'output'".

(** A world as [Example.world] in which no directory can be created. *)
Definition world_read_only (meta readme : http_result) : env :=
  {| requests_get := requests_get (Example.world meta readme Written);
     makedirs_error := fun _ _ => Some read_only;
     open_write := fun _ _ _ => OpenError read_only |}.

Definition denied : exn := Exn OSError "[Errno 13] Permission denied: 'out/sub'".

(** A world as [Example.world] in which the directory [out] can be created
    and no other. *)
Definition world_sub_denied (meta readme : http_result) : env :=
  {| requests_get := requests_get (Example.world meta readme Written);
     makedirs_error := fun _ name =>
       if String.eqb name "out" then None else Some denied;
     open_write := fun _ _ _ => Written |}.

End Sample.

(** ** Properties *)

Local Arguments String.append : simpl never.
Local Arguments info_request : simpl never.
Local Arguments readme_request : simpl never.
Local Arguments file_path : simpl never.
Local Arguments str_in : simpl never.
Local Arguments truthy : simpl never.
Local Arguments dict_lookup : simpl never.
Local Arguments path_exists : simpl never.
Local Arguments makedirs : simpl never.
Local Arguments made : simpl never.

(** Unfold the monad and evaluate as far as the known answers allow. *)
Ltac run :=
  unfold mbind, M_bind, mret, M_ret, log, get, lift, raise, try_except,
    os_path_exists, os_makedirs, write_file;
  simpl.

(** *** Strings *)

Section Strings.
Implicit Types (s : string) (c : ascii).

Lemma split_char_length sep s :
  length (split_char sep s) = S (count_char sep s).
Proof.
  induction s as [|c s IH]; simpl; [reflexivity|].
  destruct (Ascii.eqb c sep); simpl; [now rewrite IH|].
  destruct (split_char sep s); simpl in *; congruence.
Qed.

Lemma split_char_parts sep s p :
  In p (split_char sep s) -> count_char sep p = 0%nat.
Proof.
  revert p; induction s as [|c s IH]; simpl; intros p Hp.
  - destruct Hp as [<-|[]]; reflexivity.
  - destruct (Ascii.eqb c sep) eqn:Hc.
    + destruct Hp as [<-|Hp]; [reflexivity|now apply IH].
    + destruct (split_char sep s) as [|h t].
      * destruct Hp as [<-|[]]; simpl; now rewrite Hc.
      * destruct Hp as [<-|Hp]; [|apply IH; now right].
        simpl; rewrite Hc; apply IH; now left.
Qed.

Lemma map_chars_length f s : String.length (map_chars f s) = String.length s.
Proof. induction s; simpl; congruence. Qed.

Lemma map_chars_get f s i :
  String.get i (map_chars f s) = option_map f (String.get i s).
Proof.
  revert i; induction s as [|c s IH]; intros [|i]; simpl; auto.
Qed.

Lemma replace_char_absent old new s :
  count_char old s = 0%nat -> replace_char old new s = s.
Proof.
  unfold replace_char; induction s as [|c s IH]; simpl; [reflexivity|].
  destruct (Ascii.eqb c old); [discriminate|].
  intros H; now rewrite IH.
Qed.

Lemma replace_char_removes old new s :
  old <> new -> count_char old (replace_char old new s) = 0%nat.
Proof.
  intros Hne; unfold replace_char; induction s as [|c s IH]; simpl; [reflexivity|].
  rewrite IH, Nat.add_0_r.
  destruct (Ascii.eqb c old) eqn:Hc.
  - destruct (Ascii.eqb_spec new old); congruence.
  - now rewrite Hc.
Qed.

Lemma str_in_In x xs : str_in x xs = true <-> In x xs.
Proof.
  unfold str_in; rewrite existsb_exists; split.
  - intros (y & Hy & Heq); apply String.eqb_eq in Heq; now subst.
  - intros H; exists x; split; [assumption|apply String.eqb_refl].
Qed.

(** The two names [owner, repo = full_repo.split("/")] binds hold no [/]. *)
Lemma split_two full owner repo :
  split_char "/" full = [owner; repo] ->
  full <> "" /\ count_char "/" owner = 0%nat /\ count_char "/" repo = 0%nat.
Proof.
  intros H; repeat split.
  - intros ->; discriminate.
  - apply (split_char_parts "/" full); rewrite H; now left.
  - apply (split_char_parts "/" full); rewrite H; right; now left.
Qed.

End Strings.

(** *** Paths *)

Section Paths.
Implicit Types (p s : string) (c : ascii).

Lemma leading_refl s : leading_part s s.
Proof.
  exists ""; induction s as [|c s IH]; [reflexivity|].
  change (String c s = String c (s +:+ "")); now rewrite <- IH.
Qed.

Lemma leading_empty s : leading_part "" s.
Proof. now exists s. Qed.

Lemma leading_cons c a b : leading_part a b -> leading_part (String c a) (String c b).
Proof. intros [rest ->]; now exists rest. Qed.

Lemma leading_trans a b s : leading_part a b -> leading_part b s -> leading_part a s.
Proof.
  revert b s; induction a as [|c a IH]; intros b s Hab Hbs; [apply leading_empty|].
  destruct Hab as [r1 ->]; destruct Hbs as [r2 ->].
  change (leading_part (String c a) (String c ((a +:+ r1) +:+ r2))).
  apply leading_cons, (IH (a +:+ r1)); [now exists r1|now exists r2].
Qed.

Lemma leading_length a s : leading_part a s -> (String.length a <= String.length s)%nat.
Proof.
  intros [rest ->]; induction a as [|c a IH]; [apply Nat.le_0_l|].
  change (S (String.length a) <= S (String.length (a +:+ rest)))%nat; lia.
Qed.

Lemma rstrip_sep_leading s : leading_part (Os.rstrip_sep s) s.
Proof.
  induction s as [|c s IH]; simpl; [apply leading_refl|].
  destruct (Os.rstrip_sep s) as [|a r].
  - destruct (Ascii.eqb c "/"); [apply leading_empty|].
    apply leading_cons, leading_empty.
  - now apply leading_cons.
Qed.

(** The two parts of [cut_after_last_sep] make up the path. *)
Lemma cut_leading p :
  leading_part (fst (Os.cut_after_last_sep p)) p
  /\ (String.length (fst (Os.cut_after_last_sep p))
      + String.length (snd (Os.cut_after_last_sep p)) = String.length p)%nat.
Proof.
  induction p as [|c p [IH Hlen]]; simpl; [split; [apply leading_refl|reflexivity]|].
  destruct (Os.cut_after_last_sep p) as [head tail]; simpl in *.
  destruct (String.eqb head "") eqn:Hhead; simpl.
  - apply String.eqb_eq in Hhead; subst head; simpl in Hlen.
    destruct (Ascii.eqb c "/"); simpl;
      (split; [first [apply leading_cons, leading_empty|apply leading_empty]|lia]).
  - split; [now apply leading_cons|lia].
Qed.

(** The head of [os.path.split] is what the path starts with, and is
    shorter than the path when the tail is not empty. *)
Lemma path_split_leading p :
  leading_part (fst (Os.path_split p)) p
  /\ (snd (Os.path_split p) <> ""
      -> (String.length (fst (Os.path_split p)) < String.length p)%nat).
Proof.
  unfold Os.path_split.
  destruct (cut_leading p) as [Hlead Hlen].
  destruct (Os.cut_after_last_sep p) as [head tail]; simpl in *.
  assert (Htail : tail <> "" -> (String.length head < String.length p)%nat).
  { intros Hne; destruct tail; [congruence|simpl in Hlen; lia]. }
  destruct (negb (String.eqb head "") && negb (String.eqb (Os.rstrip_sep head) ""));
    simpl; [|now split].
  pose proof (rstrip_sep_leading head) as Hstrip.
  split; [now apply (leading_trans _ head)|].
  intros Hne; apply leading_length in Hstrip; specialize (Htail Hne); lia.
Qed.

Lemma parent_leading name :
  leading_part (fst (Os.parent_and_name name)) name
  /\ (snd (Os.parent_and_name name) <> ""
      -> (String.length (fst (Os.parent_and_name name)) < String.length name)%nat).
Proof.
  unfold Os.parent_and_name.
  destruct (path_split_leading name) as [Hlead Hshort].
  destruct (Os.path_split name) as [head tail]; simpl in *.
  destruct (String.eqb tail ""); [|now split].
  destruct (path_split_leading head) as [Hlead2 Hshort2].
  split; [now apply (leading_trans _ head)|].
  intros Hne; specialize (Hshort2 Hne); apply leading_length in Hlead; lia.
Qed.

End Paths.

(** [os.path.split] on some paths, as Python answers. *)
Example path_split_examples :
  Os.path_split "out/sub" = ("out", "sub")
  /\ Os.path_split "/usr//lib" = ("/usr", "lib")
  /\ Os.path_split "out/" = ("out", "")
  /\ Os.path_split "output" = ("", "output")
  /\ Os.path_split "/output" = ("/", "output")
  /\ Os.path_split "//" = ("//", "")
  /\ Os.parent_and_name "out/sub/" = ("out", "sub").
Proof. repeat split; reflexivity. Qed.

(** *** Making directories *)

Section Makedirs.
Context (mk : filesystem -> string -> option exn).

Lemma mkdir_files name fs : files (snd (mkdir mk name fs)) = files fs.
Proof. unfold mkdir; destruct (mk fs name); reflexivity. Qed.

Lemma mkdir_dirs name fs : dirs fs ⊆ dirs (snd (mkdir mk name fs)).
Proof.
  unfold mkdir; destruct (mk fs name); simpl; [reflexivity|apply union_subseteq_r].
Qed.

(** [os.makedirs] touches no file and removes no directory, returned or
    raised. *)
Lemma makedirs_from_keeps fuel name fs :
  files (snd (makedirs_from fuel mk name fs)) = files fs
  /\ dirs fs ⊆ dirs (snd (makedirs_from fuel mk name fs)).
Proof.
  revert name fs; induction fuel as [|fuel IH]; intros name fs; simpl;
    destruct (Os.parent_and_name name) as [head tail].
  - split; [apply mkdir_files|apply mkdir_dirs].
  - destruct (negb (String.eqb head "") && negb (String.eqb tail "")
              && negb (path_exists head fs));
      [|split; [apply mkdir_files|apply mkdir_dirs]].
    destruct (IH head fs) as [Hf Hd].
    destruct (makedirs_from fuel mk head fs) as [[e|] fs1]; simpl in *.
    + destruct (is_file_exists e); simpl; [|now split].
      destruct (String.eqb tail "."); simpl.
      * split; [assumption|]. etrans; [exact Hd|apply union_subseteq_r].
      * split; [now rewrite mkdir_files|]. etrans; [exact Hd|apply mkdir_dirs].
    + destruct (String.eqb tail "."); simpl.
      * split; [assumption|]. etrans; [exact Hd|apply union_subseteq_r].
      * split; [now rewrite mkdir_files|]. etrans; [exact Hd|apply mkdir_dirs].
Qed.

Lemma makedirs_files name fs : files (snd (makedirs mk name fs)) = files fs.
Proof. apply makedirs_from_keeps. Qed.

Lemma makedirs_dirs name fs : dirs fs ⊆ dirs (snd (makedirs mk name fs)).
Proof. apply makedirs_from_keeps. Qed.

Lemma mkdir_new name fs d :
  d ∈ dirs (snd (mkdir mk name fs)) -> d ∈ dirs fs \/ d = name.
Proof.
  unfold mkdir; destruct (mk fs name); simpl; [auto|].
  rewrite elem_of_union, elem_of_singleton; tauto.
Qed.

(** Every directory made is the name or what the name starts with, whether
    an exception comes or not. *)
Lemma makedirs_from_new fuel name fs d :
  d ∈ dirs (snd (makedirs_from fuel mk name fs)) ->
  d ∈ dirs fs \/ leading_part d name.
Proof.
  revert name fs; induction fuel as [|fuel IH]; intros name fs; simpl;
    destruct (parent_leading name) as [Hlead _];
    destruct (Os.parent_and_name name) as [head tail]; simpl in Hlead.
  - intros H; apply mkdir_new in H as [H| ->]; [now left|right; apply leading_refl].
  - assert (Hleaf : forall fs1,
              (d ∈ dirs fs1 -> d ∈ dirs fs \/ leading_part d head) ->
              d ∈ dirs (snd (if String.eqb tail "." then (None, add_dir name fs1)
                             else mkdir mk name fs1)) ->
              d ∈ dirs fs \/ leading_part d name).
    { intros fs1 Hfs1 H.
      assert (Hd : d ∈ dirs fs1 \/ d = name).
      { destruct (String.eqb tail "."); [|now apply mkdir_new].
        simpl in H; apply elem_of_union in H as [H|H]; [|now left].
        apply elem_of_singleton in H; now right. }
      destruct Hd as [Hd| ->]; [|right; apply leading_refl].
      destruct (Hfs1 Hd) as [H'|H']; [now left|right].
      now apply (leading_trans _ head). }
    destruct (negb (String.eqb head "") && negb (String.eqb tail "")
              && negb (path_exists head fs)).
    + specialize (IH head fs).
      destruct (makedirs_from fuel mk head fs) as [[e|] fs1]; simpl in IH.
      * destruct (is_file_exists e); [now apply Hleaf|].
        simpl; intros H; destruct (IH H) as [H'|H']; [now left|right].
        now apply (leading_trans _ head).
      * now apply Hleaf.
    + intros H; apply mkdir_new in H as [H| ->]; [now left|right; apply leading_refl].
Qed.

Lemma makedirs_new name fs d :
  d ∈ dirs (snd (makedirs mk name fs)) -> d ∈ dirs fs \/ leading_part d name.
Proof. apply makedirs_from_new. Qed.

(** The recursion of [makedirs_from] ends before its fuel does: the parent
    is shorter than the name each time. *)
Lemma makedirs_from_enough fuel1 fuel2 name fs :
  (String.length name <= fuel1)%nat -> (String.length name <= fuel2)%nat ->
  makedirs_from fuel1 mk name fs = makedirs_from fuel2 mk name fs.
Proof.
  revert fuel2 name fs; induction fuel1 as [|fuel1 IH]; intros [|fuel2] name fs H1 H2;
    try reflexivity.
  - destruct name; simpl in H1; [reflexivity|lia].
  - destruct name; simpl in H2; [reflexivity|lia].
  - simpl. destruct (parent_leading name) as [_ Hshort].
    destruct (Os.parent_and_name name) as [head tail]; simpl in Hshort.
    destruct (String.eqb head ""); simpl; [reflexivity|].
    destruct (String.eqb tail "") eqn:Htail; simpl; [reflexivity|].
    destruct (path_exists head fs); simpl; [reflexivity|].
    apply String.eqb_neq in Htail; specialize (Hshort Htail).
    now rewrite (IH fuel2 head fs) by lia.
Qed.

(** [os.makedirs], as its source reads. *)
Lemma makedirs_equation name fs :
  makedirs mk name fs
  = let (head, tail) := Os.parent_and_name name in
    let after_parent fs1 :=
      if String.eqb tail "." then (None, add_dir name fs1) else mkdir mk name fs1 in
    if negb (String.eqb head "") && negb (String.eqb tail "")
       && negb (path_exists head fs)
    then match makedirs mk head fs with
         | (Some e, fs1) =>
             if is_file_exists e then after_parent fs1 else (Some e, fs1)
         | (None, fs1) => after_parent fs1
         end
    else mkdir mk name fs.
Proof.
  unfold makedirs.
  destruct name as [|c name]; [reflexivity|].
  change (String.length (String c name)) with (S (String.length name)).
  set (path := String c name).
  assert (Hlen : String.length path = S (String.length name)) by reflexivity.
  clearbody path.
  change (makedirs_from (S (String.length name)) mk path fs)
    with (let (head, tail) := Os.parent_and_name path in
          let after_parent fs1 :=
            if String.eqb tail "." then (None, add_dir path fs1)
            else mkdir mk path fs1 in
          if negb (String.eqb head "") && negb (String.eqb tail "")
             && negb (path_exists head fs)
          then match makedirs_from (String.length name) mk head fs with
               | (Some e, fs1) =>
                   if is_file_exists e then after_parent fs1 else (Some e, fs1)
               | (None, fs1) => after_parent fs1
               end
          else mkdir mk path fs).
  destruct (parent_leading path) as [_ Hshort].
  destruct (Os.parent_and_name path) as [head tail]; simpl in Hshort.
  destruct (String.eqb head ""); simpl; [reflexivity|].
  destruct (String.eqb tail "") eqn:Htail; simpl; [reflexivity|].
  destruct (path_exists head fs); simpl; [reflexivity|].
  apply String.eqb_neq in Htail; specialize (Hshort Htail).
  now rewrite (makedirs_from_enough (String.length name) (String.length head) head fs)
    by lia.
Qed.

End Makedirs.

Lemma made_files name fs : files (made name fs) = files fs.
Proof. apply makedirs_files. Qed.

Lemma made_dirs name fs : dirs fs ⊆ dirs (made name fs).
Proof. apply makedirs_dirs. Qed.

Lemma in_add_dir name fs : name ∈ dirs (add_dir name fs).
Proof. apply elem_of_union_l, elem_of_singleton_2; reflexivity. Qed.

(** When nothing fails, [os.makedirs(name)] ends by making [name]. *)
Lemma made_from_holds_name fuel name fs :
  fst (makedirs_from fuel (fun _ _ => None) name fs) = None
  /\ name ∈ dirs (snd (makedirs_from fuel (fun _ _ => None) name fs)).
Proof.
  revert name fs; induction fuel as [|fuel IH]; intros name fs; simpl;
    destruct (Os.parent_and_name name) as [head tail].
  - split; [reflexivity|apply in_add_dir].
  - destruct (negb (String.eqb head "") && negb (String.eqb tail "")
              && negb (path_exists head fs));
      [|split; [reflexivity|apply in_add_dir]].
    destruct (IH head fs) as [Hr _].
    destruct (makedirs_from fuel (fun _ _ => None) head fs) as [[e|] fs1];
      simpl in *; [discriminate|].
    destruct (String.eqb tail "."); simpl; split; try reflexivity;
      apply in_add_dir.
Qed.

Lemma made_holds_name name fs : name ∈ dirs (made name fs).
Proof. apply made_from_holds_name. Qed.

Lemma path_exists_made name fs : path_exists name (made name fs) = true.
Proof.
  unfold path_exists; apply orb_true_iff; left.
  apply bool_decide_eq_true, made_holds_name.
Qed.

Lemma made_new name fs d : d ∈ dirs (made name fs) -> d ∈ dirs fs \/ leading_part d name.
Proof. apply makedirs_new. Qed.

(** [os.makedirs("a/b/c")] on an empty disk makes the three directories. *)
Example makedirs_nested :
  let fs := made "a/b/c" (st_fs Example.st0) in
  path_exists "a" fs = true /\ path_exists "a/b" fs = true
  /\ path_exists "a/b/c" fs = true /\ path_exists "b" fs = false.
Proof. vm_compute; repeat split; reflexivity. Qed.

(** *** The loop and the persistence step *)

Section Pipeline.
Context (E : env) (output_dir : string) (token : option string).

(** An entry whose body returns is followed by the rest of the list. *)
Lemma body_returns_continues full_repo s :
  raised (process_repository E output_dir token full_repo s) = None ->
  continues E output_dir token full_repo s.
Proof.
  intros H rest; simpl; unfold mbind, M_bind.
  destruct (process_repository E output_dir token full_repo s); [reflexivity|discriminate].
Qed.

(** An exception leaving the body ends the run: no later entry matters. *)
Lemma body_raises_aborts full_repo rest s e :
  raised (process_repository E output_dir token full_repo s) = Some e ->
  process_repositories E (full_repo :: rest) output_dir token s
  = Raise e (final (process_repository E output_dir token full_repo s)).
Proof.
  simpl; unfold mbind, M_bind.
  destruct (process_repository E output_dir token full_repo s); simpl; congruence.
Qed.

(** [save_readme] sends nothing. *)
Lemma save_readme_sent content filename directory s :
  st_sent (final (save_readme E content filename directory s)) = st_sent s.
Proof.
  unfold save_readme; run.
  destruct (path_exists directory (st_fs s)); simpl.
  - destruct (open_write _ _ _ _); reflexivity.
  - destruct (makedirs _ _ _) as [[e|] fs1]; simpl; [reflexivity|].
    destruct (open_write _ _ _ _); reflexivity.
Qed.

(** [save_readme] touches no file but the one at [file_path]. *)
Lemma save_readme_frame content filename directory s p :
  p <> file_path directory filename ->
  files (st_fs (final (save_readme E content filename directory s))) !! p
  = files (st_fs s) !! p.
Proof.
  intros Hp; unfold save_readme; run.
  destruct (path_exists directory (st_fs s)); simpl.
  - destruct (open_write _ _ _ _); simpl; try reflexivity;
      now rewrite lookup_insert_ne.
  - pose proof (makedirs_files (makedirs_error E) directory (st_fs s)) as Hkept.
    destruct (makedirs _ _ _) as [[e|] fs1]; simpl in *; [now rewrite Hkept|].
    destruct (open_write _ _ _ _); simpl; rewrite ?made_files; try reflexivity;
      now rewrite lookup_insert_ne.
Qed.

End Pipeline.

(** *** Malformed entries *)

(** C3: an entry that, once stripped, does not split on [/] into exactly two
    parts is skipped: the body returns without an exception, sends no request
    (neither fetch is called), leaves the file system alone and logs one
    record, a warning for an entry that is empty after stripping and an error
    otherwise; the loop goes on with the following entries. *)
Theorem malformed_entry_skipped E output_dir token full_repo s :
  length (split_char "/" (strip full_repo)) <> 2%nat ->
  let res := process_repository E output_dir token full_repo s in
  raised res = None
  /\ st_sent (final res) = st_sent s
  /\ st_fs (final res) = st_fs s
  /\ st_log (final res)
     = st_log s ++
       [if String.eqb (strip full_repo) ""
        then (WARNING, "Encountered empty repository entry. Skipping.")
        else (ERROR, "Invalid repository format: '" +:+ strip full_repo
                     +:+ "'. Expected 'owner/repo'. Skipping.")]
  /\ continues E output_dir token full_repo s.
Proof.
  intros Hparts res.
  assert (Hres : res = Val tt (add_log
            [if String.eqb (strip full_repo) ""
             then (WARNING, "Encountered empty repository entry. Skipping.")
             else (ERROR, "Invalid repository format: '" +:+ strip full_repo
                          +:+ "'. Expected 'owner/repo'. Skipping.")] s)).
  { subst res; unfold process_repository.
    destruct (String.eqb (strip full_repo) ""); [reflexivity|].
    destruct (split_char "/" (strip full_repo)) as [|a [|b [|c l]]];
      simpl in Hparts; try reflexivity; congruence. }
  repeat split; try (rewrite Hres; reflexivity).
  apply body_returns_continues; fold res; now rewrite Hres.
Qed.

Lemma malformed_entry_skipped_witness :
  raised (process_repository (Example.world Example.unreachable Example.unreachable Written)
            "output" None " a/b/c " Example.st0) = None.
Proof.
  apply (malformed_entry_skipped
           (Example.world Example.unreachable Example.unreachable Written)
           "output" None " a/b/c " Example.st0).
  vm_compute; lia.
Defined.

(** An entry does not split into two parts exactly when it does not hold
    exactly one [/]. *)
Lemma two_parts_one_slash s :
  length (split_char "/" s) = 2%nat <-> count_char "/" s = 1%nat.
Proof. rewrite split_char_length; lia. Qed.

(** *** The license gate *)

Lemma truthy_dict k d v : dict_lookup k d = Some v -> truthy (PDict d) = true.
Proof. destruct d; [discriminate|reflexivity]. Qed.

Lemma truthy_nonempty d : d <> [] -> truthy (PDict d) = true.
Proof. destruct d; [congruence|reflexivity]. Qed.

(** Enter the loop body on a well-formed entry, up to the metadata request. *)
Ltac enter Hsplit :=
  let Hne := fresh "Hne" in
  unfold process_repository; rewrite Hsplit;
  destruct (split_two _ _ _ Hsplit) as (Hne & _ & _);
  apply String.eqb_neq in Hne; rewrite Hne; clear Hne;
  unfold get_repo_info; run.

(** Close the goals about the state a run leaves. *)
Ltac finish :=
  repeat match goal with
         | |- _ /\ _ => split
         | |- exists _, _ => eexists
         end;
  try reflexivity; simpl; rewrite <- ?app_assoc; reflexivity.

(** Pass [os.makedirs] when [directory_ok] says that it does not raise. *)
Ltac create Hdir :=
  let e := fresh "e" in
  let fs1 := fresh "fs" in
  specialize (Hdir eq_refl);
  destruct (makedirs _ _ _) as [[e|] fs1]; simpl in Hdir; [discriminate Hdir|];
  simpl.

(** A license name passes [license_allowed] exactly when its lower-cased
    form is equal to one of the three allow-listed strings. *)
Lemma license_allowed_exact name :
  license_allowed name = true
  <-> lower name = "mit license" \/ lower name = "apache license 2.0"
      \/ lower name = "bsd license".
Proof. unfold license_allowed; rewrite str_in_In; simpl; intuition congruence. Qed.

(** The gate of the pipeline is [license_allowed]: with a metadata document
    whose license carries the string [name], the README is requested exactly
    when the name passes. *)
Lemma gate_decides_download E output_dir token full_repo owner repo s r d l name :
  split_char "/" (strip full_repo) = [owner; repo] ->
  requests_get E (st_sent s) (info_request owner repo token) = Responded r ->
  status_code r = 200 ->
  json r = inr (PDict d) ->
  dict_lookup "license" d = Some (PDict l) ->
  dict_lookup "name" l = Some (PStr name) ->
  let res := process_repository E output_dir token full_repo s in
  st_sent (final res)
  = st_sent s ++ info_request owner repo token
      :: (if license_allowed name
          then [readme_request owner repo (default_branch d) token] else []).
Proof.
  intros Hsplit Hget Hst Hjs Hlic Hname res; subst res.
  enter Hsplit. rewrite Hget, Hst; simpl; rewrite Hjs; simpl.
  rewrite (truthy_dict _ _ _ Hlic), Hlic; simpl.
  rewrite (truthy_dict _ _ _ Hname), Hname; simpl.
  unfold license_allowed; destruct (str_in (lower name) ALLOWED_LICENSES); simpl;
    [|reflexivity].
  fold (default_branch d); unfold download_readme; run.
  destruct (requests_get E (st_sent s ++ _) _) as [rd|e]; simpl;
    [|now rewrite <- app_assoc].
  destruct (status_code rd =? 200); simpl; [|now rewrite <- app_assoc].
  destruct (text rd); simpl; [now rewrite <- app_assoc|].
  rewrite save_readme_sent; simpl; now rewrite <- app_assoc.
Qed.

(** A name that does not pass the gate: one warning that quotes it in lower
    case, no README request, no file. *)
Lemma gate_rejects E output_dir token full_repo owner repo s r d l name :
  split_char "/" (strip full_repo) = [owner; repo] ->
  requests_get E (st_sent s) (info_request owner repo token) = Responded r ->
  status_code r = 200 ->
  json r = inr (PDict d) ->
  dict_lookup "license" d = Some (PDict l) ->
  dict_lookup "name" l = Some (PStr name) ->
  license_allowed name = false ->
  rejects_license E output_dir token full_repo owner repo (lower name) s.
Proof.
  intros Hsplit Hget Hst Hjs Hlic Hname Hok.
  assert (Hres : exists s',
            process_repository E output_dir token full_repo s = Val tt s'
            /\ st_sent s' = st_sent s ++ [info_request owner repo token]
            /\ st_fs s' = st_fs s
            /\ exists new, st_log s' = st_log s ++ new
                 /\ at_level WARNING new
                    = ["Repository '" +:+ strip full_repo +:+ "' has a license '"
                       +:+ lower name +:+ "' which is not allowed. Skipping."]).
  { enter Hsplit. rewrite Hget, Hst; simpl; rewrite Hjs; simpl.
    rewrite (truthy_dict _ _ _ Hlic), Hlic; simpl.
    rewrite (truthy_dict _ _ _ Hname), Hname; simpl.
    unfold license_allowed in Hok; rewrite Hok; simpl. finish. }
  destruct Hres as (s' & Hs' & Hsent & Hfs & Hlog).
  unfold rejects_license; rewrite Hs'; simpl; repeat split; try assumption.
  apply body_returns_continues; now rewrite Hs'.
Qed.

(** C2: in [process_repositories], with a metadata document whose license
    carries the string [name], the README is requested exactly when the
    lower-cased name is equal to one of the three allow-listed strings, and
    the repository is turned down (one warning, no README request, no file)
    exactly when it is equal to none; nothing is trimmed or normalised, so
    "MIT License" is accepted, and "MIT License " (trailing space),
    " MIT License", "MIT-License" and "MIT" are turned down. *)
Theorem license_gate_exact_match E output_dir token full_repo owner repo s r d l name :
  split_char "/" (strip full_repo) = [owner; repo] ->
  requests_get E (st_sent s) (info_request owner repo token) = Responded r ->
  status_code r = 200 ->
  json r = inr (PDict d) ->
  dict_lookup "license" d = Some (PDict l) ->
  dict_lookup "name" l = Some (PStr name) ->
  (requests_readme E output_dir token full_repo owner repo d s
   <-> lower name = "mit license" \/ lower name = "apache license 2.0"
       \/ lower name = "bsd license")
  /\ (rejects_license E output_dir token full_repo owner repo (lower name) s
      <-> lower name <> "mit license" /\ lower name <> "apache license 2.0"
          /\ lower name <> "bsd license")
  /\ (name = "MIT License"
      -> requests_readme E output_dir token full_repo owner repo d s)
  /\ (name = "MIT License "
      -> rejects_license E output_dir token full_repo owner repo "mit license " s)
  /\ (name = " MIT License"
      -> rejects_license E output_dir token full_repo owner repo " mit license" s)
  /\ (name = "MIT-License"
      -> rejects_license E output_dir token full_repo owner repo "mit-license" s)
  /\ (name = "MIT"
      -> rejects_license E output_dir token full_repo owner repo "mit" s).
Proof.
  intros Hsplit Hget Hst Hjs Hlic Hname.
  pose proof (gate_decides_download E output_dir token full_repo owner repo s r d l
                name Hsplit Hget Hst Hjs Hlic Hname) as Hsent; cbv zeta in Hsent.
  pose proof (gate_rejects E output_dir token full_repo owner repo s r d l
                name Hsplit Hget Hst Hjs Hlic Hname) as Hrej.
  pose proof (license_allowed_exact name) as Hex.
  assert (Hyes : requests_readme E output_dir token full_repo owner repo d s
                 <-> lower name = "mit license" \/ lower name = "apache license 2.0"
                     \/ lower name = "bsd license").
  { unfold requests_readme; rewrite Hsent, <- Hex.
    destruct (license_allowed name); split; intros H;
      try reflexivity; try discriminate.
    apply app_inv_head in H; discriminate. }
  assert (Hno : rejects_license E output_dir token full_repo owner repo (lower name) s
                <-> lower name <> "mit license" /\ lower name <> "apache license 2.0"
                    /\ lower name <> "bsd license").
  { split.
    - intros (_ & Hs & _); rewrite Hsent in Hs.
      destruct (license_allowed name).
      + apply app_inv_head in Hs; discriminate.
      + repeat split; intros Heq; destruct Hex as [_ Hex];
          discriminate Hex; auto.
    - intros (H1 & H2 & H3); apply Hrej.
      destruct (license_allowed name); [|reflexivity].
      destruct Hex as [Hex _]; destruct (Hex eq_refl) as [H|[H|H]]; contradiction. }
  split; [exact Hyes|]. split; [exact Hno|].
  split; [|split; [|split; [|split]]]; intros ->.
  - apply Hyes; left; reflexivity.
  - apply Hno; repeat split; intros H; vm_compute in H; discriminate.
  - apply Hno; repeat split; intros H; vm_compute in H; discriminate.
  - apply Hno; repeat split; intros H; vm_compute in H; discriminate.
  - apply Hno; repeat split; intros H; vm_compute in H; discriminate.
Qed.

Lemma license_gate_exact_match_witness :
  rejects_license
    (Example.world (Example.document "{}" (PDict Example.mit_trailing_space))
       Example.unreachable Written)
    "output" None "octocat/Hello-World" "octocat" "Hello-World" "mit license "
    Example.st0.
Proof.
  exact (proj1 (proj2 (proj2 (proj2
           (license_gate_exact_match
              (Example.world (Example.document "{}" (PDict Example.mit_trailing_space))
                 Example.unreachable Written)
              "output" None "octocat/Hello-World" "octocat" "Hello-World" Example.st0
              {| status_code := 200; text := "{}";
                 json := inr (PDict Example.mit_trailing_space) |}
              Example.mit_trailing_space [("name", PStr "MIT License ")]
              "MIT License "
              eq_refl eq_refl eq_refl eq_refl eq_refl eq_refl)))) eq_refl).
Defined.

(** C4: a metadata document without a [license] key makes the pipeline skip
    the repository: the body returns, the metadata request is the only one
    sent (the README fetcher is not called), the file system is unchanged and
    exactly one warning is logged. *)
Theorem missing_license_skipped E output_dir token full_repo owner repo s r d :
  split_char "/" (strip full_repo) = [owner; repo] ->
  requests_get E (st_sent s) (info_request owner repo token) = Responded r ->
  status_code r = 200 ->
  json r = inr (PDict d) ->
  dict_lookup "license" d = None ->
  let res := process_repository E output_dir token full_repo s in
  raised res = None
  /\ st_sent (final res) = st_sent s ++ [info_request owner repo token]
  /\ st_fs (final res) = st_fs s
  /\ (exists new,
        st_log (final res) = st_log s ++ new
        /\ length (at_level WARNING new) = 1%nat)
  /\ continues E output_dir token full_repo s.
Proof.
  intros Hsplit Hget Hst Hjs Hlic res.
  assert (Hres : exists s', res = Val tt s'
            /\ st_sent s' = st_sent s ++ [info_request owner repo token]
            /\ st_fs s' = st_fs s
            /\ exists new, st_log s' = st_log s ++ new
                 /\ length (at_level WARNING new) = 1%nat).
  { subst res; enter Hsplit. rewrite Hget, Hst; simpl; rewrite Hjs; simpl.
    destruct (truthy (PDict d)); simpl; [rewrite Hlic; simpl|]; finish. }
  destruct Hres as (s' & Hs' & Hsent & Hfs & Hlog).
  rewrite Hs'; simpl; repeat split; try assumption.
  apply body_returns_continues; fold res; now rewrite Hs'.
Qed.

Lemma missing_license_skipped_witness :
  st_fs (final (process_repository
                  (Example.world (Example.document "{}" (PDict Example.unlicensed))
                     Example.unreachable Written)
                  "output" None "octocat/Hello-World" Example.st0))
  = st_fs Example.st0.
Proof.
  apply (missing_license_skipped
           (Example.world (Example.document "{}" (PDict Example.unlicensed))
              Example.unreachable Written)
           "output" None "octocat/Hello-World" "octocat" "Hello-World" Example.st0
           {| status_code := 200; text := "{}"; json := inr (PDict Example.unlicensed) |}
           Example.unlicensed); reflexivity.
Defined.

(** *** Persistence *)

(** C7: the name of the file is the given name with every [/] replaced by
    [_] and every other character kept in place: same length, character by
    character, no [/] left; the file [save_readme] writes is that name with
    [.md] appended, joined to the directory, and no other file is touched. *)
Theorem sanitize_replaces_only_slashes filename :
  String.length (sanitize filename) = String.length filename
  /\ (forall i,
        String.get i (sanitize filename)
        = option_map (fun c => if Ascii.eqb c "/" then "_"%char else c)
            (String.get i filename))
  /\ count_char "/" (sanitize filename) = 0%nat
  /\ (forall directory,
        file_path directory filename
        = path_join directory (sanitize filename +:+ ".md"))
  /\ (forall E content directory s p,
        p <> path_join directory (sanitize filename +:+ ".md") ->
        files (st_fs (final (save_readme E content filename directory s))) !! p
        = files (st_fs s) !! p).
Proof.
  repeat split.
  - apply map_chars_length.
  - intros i; apply map_chars_get.
  - now apply replace_char_removes.
  - intros; now apply save_readme_frame.
Qed.

(** A write that fails, in [open] or while writing, is caught inside
    [save_readme], which returns after one error record with the path and
    the exception's text. *)
Lemma save_readme_catches E content filename directory s e :
  directory_ok E directory (st_fs s) ->
  (open_write E (ready directory (st_fs s)) (file_path directory filename) content
   = OpenError e
   \/ exists partial,
       open_write E (ready directory (st_fs s)) (file_path directory filename) content
       = WriteError partial e) ->
  exists s',
    save_readme E content filename directory s = Val tt s'
    /\ exists new,
         st_log s' = st_log s ++ new
         /\ at_level ERROR new
            = ["Failed to save README.md file " +:+ file_path directory filename
               +:+ ". Error: " +:+ exn_msg e].
Proof.
  intros Hdir Hw; unfold save_readme; run.
  unfold directory_ok in Hdir; unfold ready in Hw.
  destruct (path_exists directory (st_fs s)); simpl.
  - destruct Hw as [Hw|[partial Hw]]; rewrite Hw; simpl; eauto.
  - create Hdir.
    destruct Hw as [Hw|[partial Hw]]; rewrite Hw; simpl;
      (eexists; split; [reflexivity|]); simpl; rewrite <- app_assoc; eauto.
Qed.

(** *** Repositories that pass the license gate *)

Section Accepted.
Context (E : env) (output_dir : string) (token : option string).
Context (full_repo owner repo : string) (s : state).
Context (r : response) (d l : list (string * value)) (name : string).

(** The entry is well formed, the metadata request is answered with status
    200 and a JSON object [d], whose [license] is an object [l], whose [name]
    is a string that passes the gate. *)
Hypothesis Hsplit : split_char "/" (strip full_repo) = [owner; repo].
Hypothesis Hinfo :
  requests_get E (st_sent s) (info_request owner repo token) = Responded r.
Hypothesis Hstatus : status_code r = 200.
Hypothesis Hjson : json r = inr (PDict d).
Hypothesis Hlicense : dict_lookup "license" d = Some (PDict l).
Hypothesis Hname : dict_lookup "name" l = Some (PStr name).
Hypothesis Hallowed : license_allowed name = true.

(** Run the body up to the README request. *)
Ltac accept :=
  enter Hsplit; rewrite Hinfo, Hstatus; simpl; rewrite Hjson; simpl;
  rewrite (truthy_dict _ _ _ Hlicense), Hlicense; simpl;
  rewrite (truthy_dict _ _ _ Hname), Hname; simpl;
  let H := fresh in
  pose proof Hallowed as H; unfold license_allowed in H; rewrite H; clear H; simpl;
  fold (default_branch d); unfold download_readme; run.

(** C8: when the accepted metadata has no [default_branch] key, the README
    request goes to the branch "master": it is the second and last request
    of the body, whatever its outcome. *)
Theorem missing_branch_defaults_to_master :
  dict_lookup "default_branch" d = None ->
  let res := process_repository E output_dir token full_repo s in
  st_sent (final res)
  = st_sent s ++ [info_request owner repo token;
                  readme_request owner repo (PStr "master") token]
  /\ url (readme_request owner repo (PStr "master") token)
     = GITHUB_RAW_URL +:+ owner +:+ "/" +:+ repo +:+ "/master/README.md".
Proof.
  intros Hnone res; split; [|reflexivity].
  subst res.
  rewrite (gate_decides_download E output_dir token full_repo owner repo s r d l name)
    by assumption.
  rewrite Hallowed; unfold default_branch; now rewrite Hnone.
Qed.

Context (rd : response).
Hypothesis Hreadme :
  requests_get E (st_sent s ++ [info_request owner repo token])
    (readme_request owner repo (default_branch d) token) = Responded rd.

(** A README request answered with another status than 200: one error and
    one warning, no file. *)
Lemma readme_error_skipped :
  status_code rd <> 200 ->
  skipped_with_error E output_dir token full_repo s.
Proof.
  intros Hrd; apply Z.eqb_neq in Hrd.
  assert (Hres : exists s', process_repository E output_dir token full_repo s = Val tt s'
                            /\ st_fs s' = st_fs s
                            /\ exists new msg, st_log s' = st_log s ++ new
                                               /\ at_level ERROR new = [msg]).
  { accept. rewrite Hreadme, Hrd; simpl. finish. }
  destruct Hres as (s' & Hs' & Hfs & Hlog).
  unfold skipped_with_error; rewrite Hs'; simpl; repeat split; try assumption.
  apply body_returns_continues; now rewrite Hs'.
Qed.

(** C9: a README answered with status 200 and an empty text is handled as a
    README that could not be fetched (the hypothesis covers both, the
    conclusion is the same): the body returns, nothing is written, the only
    warning is the one for a missing README, and the loop goes on. *)
Theorem empty_readme_skipped :
  (status_code rd = 200 /\ text rd = "") \/ status_code rd <> 200 ->
  let res := process_repository E output_dir token full_repo s in
  raised res = None
  /\ st_sent (final res)
     = st_sent s ++ [info_request owner repo token;
                     readme_request owner repo (default_branch d) token]
  /\ st_fs (final res) = st_fs s
  /\ (exists new,
        st_log (final res) = st_log s ++ new
        /\ at_level WARNING new
           = ["Repository '" +:+ strip full_repo
              +:+ "' does not have a README.md or it could not be downloaded."])
  /\ continues E output_dir token full_repo s.
Proof.
  intros Hrd res.
  assert (Hres : exists s', res = Val tt s'
            /\ st_sent s' = st_sent s ++ [info_request owner repo token;
                 readme_request owner repo (default_branch d) token]
            /\ st_fs s' = st_fs s
            /\ exists new, st_log s' = st_log s ++ new
                 /\ at_level WARNING new
                    = ["Repository '" +:+ strip full_repo
                       +:+ "' does not have a README.md or it could not be downloaded."]).
  { subst res; accept. rewrite Hreadme.
    destruct Hrd as [[H200 Hempty]|Hrd].
    - rewrite H200; simpl; rewrite Hempty; simpl. finish.
    - apply Z.eqb_neq in Hrd; rewrite Hrd; simpl. finish. }
  destruct Hres as (s' & Hs' & Hsent & Hfs & Hlog).
  rewrite Hs'; simpl; repeat split; try assumption.
  apply body_returns_continues; fold res; now rewrite Hs'.
Qed.

(** C5, amended: when moreover the README request is answered with status
    200 and a text that is not empty, the output directory is there or can be
    created, and the write succeeds, then the body returns and the files
    afterwards are the files before with the one at
    [os.path.join(output_dir, repo + ".md")] set to the fetched text: that
    file reads back as the text, every other file is as it was. *)
Theorem readme_saved_verbatim :
  status_code rd = 200 ->
  text rd <> "" ->
  directory_ok E output_dir (st_fs s) ->
  open_write E (ready output_dir (st_fs s))
    (path_join output_dir (repo +:+ ".md")) (text rd) = Written ->
  let res := process_repository E output_dir token full_repo s in
  let path := path_join output_dir (repo +:+ ".md") in
  raised res = None
  /\ files (st_fs (final res)) = <[path := text rd]> (files (st_fs s))
  /\ files (st_fs (final res)) !! path = Some (text rd)
  /\ (forall p, p <> path -> files (st_fs (final res)) !! p = files (st_fs s) !! p)
  /\ continues E output_dir token full_repo s.
Proof.
  intros H200 Htext Hdir Hwrite res path.
  assert (Hpath : file_path output_dir repo = path).
  { unfold file_path, sanitize.
    destruct (split_two _ _ _ Hsplit) as (_ & _ & Hrepo).
    now rewrite (replace_char_absent _ _ _ Hrepo). }
  assert (Hres : exists s', res = Val tt s'
            /\ files (st_fs s') = <[path := text rd]> (files (st_fs s))).
  { subst res; accept. rewrite Hreadme, H200; simpl.
    destruct (text rd) as [|c t] eqn:Ht; [congruence|].
    unfold save_readme; run. rewrite Hpath; fold path in Hwrite.
    unfold directory_ok in Hdir; unfold ready in Hwrite.
    destruct (path_exists output_dir (st_fs s)); simpl.
    - rewrite Hwrite; simpl; eauto.
    - create Hdir. rewrite Hwrite; simpl.
      eexists; split; [reflexivity|]; simpl; now rewrite made_files. }
  destruct Hres as (s' & Hs' & Hfiles).
  rewrite Hs'; simpl; rewrite Hfiles; repeat split.
  - apply lookup_insert_eq.
  - intros p Hp; now apply lookup_insert_ne.
  - apply body_returns_continues; fold res; now rewrite Hs'.
Qed.

(** A README that was fetched and whose write fails: the failure stays in
    [save_readme], the last call of the body, and the body returns. *)
Lemma write_failure_skipped e :
  status_code rd = 200 ->
  text rd <> "" ->
  directory_ok E output_dir (st_fs s) ->
  (open_write E (ready output_dir (st_fs s)) (file_path output_dir repo) (text rd)
   = OpenError e
   \/ exists partial,
       open_write E (ready output_dir (st_fs s)) (file_path output_dir repo) (text rd)
       = WriteError partial e) ->
  exists s',
    process_repository E output_dir token full_repo s = Val tt s'
    /\ st_sent s' = st_sent s ++ [info_request owner repo token;
                                  readme_request owner repo (default_branch d) token]
    /\ exists new,
         st_log s' = st_log s ++ new
         /\ at_level ERROR new
            = ["Failed to save README.md file " +:+ file_path output_dir repo
               +:+ ". Error: " +:+ exn_msg e].
Proof.
  intros H200 Htext Hdir Hw.
  accept. rewrite Hreadme, H200; simpl.
  destruct (text rd) as [|c t] eqn:Ht; [congruence|].
  match goal with
  | |- context [save_readme E ?c repo output_dir ?s1] =>
      destruct (save_readme_catches E c repo output_dir s1 e Hdir Hw)
        as (s' & Hs' & new & Hlog & Herr);
      pose proof (save_readme_sent E c repo output_dir s1) as Hsent
  end.
  rewrite Hs' in *; simpl in *.
  exists s'; split; [reflexivity|]. split.
  - rewrite Hsent, <- app_assoc; reflexivity.
  - eexists; split; [rewrite Hlog, <- ?app_assoc; reflexivity|exact Herr].
Qed.

End Accepted.

(** C6: a write that fails during persistence, in [open] or while writing,
    is caught: [save_readme] returns and the one error record it logs carries
    the path and the exception's text; and in [process_repositories], for a
    repository that passed the license gate and whose README was fetched, the
    body returns with that error record and the loop goes on with the rest of
    the list. The directory is there or [os.makedirs], which sits before the
    [try], does not raise. *)
Theorem write_failure_is_caught E :
  (forall content filename directory s e,
      directory_ok E directory (st_fs s) ->
      (open_write E (ready directory (st_fs s)) (file_path directory filename) content
       = OpenError e
       \/ exists partial,
           open_write E (ready directory (st_fs s)) (file_path directory filename)
             content
           = WriteError partial e) ->
      let res := save_readme E content filename directory s in
      raised res = None
      /\ exists new,
           st_log (final res) = st_log s ++ new
           /\ at_level ERROR new
              = ["Failed to save README.md file " +:+ file_path directory filename
                 +:+ ". Error: " +:+ exn_msg e])
  /\ (forall output_dir token full_repo owner repo s r d l name rd e,
        split_char "/" (strip full_repo) = [owner; repo] ->
        requests_get E (st_sent s) (info_request owner repo token) = Responded r ->
        status_code r = 200 ->
        json r = inr (PDict d) ->
        dict_lookup "license" d = Some (PDict l) ->
        dict_lookup "name" l = Some (PStr name) ->
        license_allowed name = true ->
        requests_get E (st_sent s ++ [info_request owner repo token])
          (readme_request owner repo (default_branch d) token) = Responded rd ->
        status_code rd = 200 ->
        text rd <> "" ->
        directory_ok E output_dir (st_fs s) ->
        (open_write E (ready output_dir (st_fs s)) (file_path output_dir repo) (text rd)
         = OpenError e
         \/ exists partial,
             open_write E (ready output_dir (st_fs s)) (file_path output_dir repo)
               (text rd)
             = WriteError partial e) ->
        let res := process_repository E output_dir token full_repo s in
        raised res = None
        /\ st_sent (final res)
           = st_sent s ++ [info_request owner repo token;
                           readme_request owner repo (default_branch d) token]
        /\ (exists new,
              st_log (final res) = st_log s ++ new
              /\ at_level ERROR new
                 = ["Failed to save README.md file " +:+ file_path output_dir repo
                    +:+ ". Error: " +:+ exn_msg e])
        /\ continues E output_dir token full_repo s).
Proof.
  split.
  - intros content filename directory s e Hdir Hw res; subst res.
    destruct (save_readme_catches E content filename directory s e Hdir Hw)
      as (s' & Hs' & Hlog).
    rewrite Hs'; split; [reflexivity|exact Hlog].
  - intros output_dir token full_repo owner repo s r d l name rd e
      Hsplit Hinfo Hst Hjs Hlic Hname Hok Hreadme H200 Htext Hdir Hw res.
    destruct (write_failure_skipped E output_dir token full_repo owner repo s r d l
                name Hsplit Hinfo Hst Hjs Hlic Hname Hok rd Hreadme e H200 Htext
                Hdir Hw) as (s' & Hs' & Hsent & Hlog).
    subst res; rewrite Hs'; simpl; repeat split; try assumption.
    apply body_returns_continues; now rewrite Hs'.
Qed.

Lemma write_failure_is_caught_witness :
  raised (process_repository
            (Example.world (Example.document "{}" (PDict Example.mit))
               (Example.html 200 "# Hello") (WriteError "# He" Example.disk_full))
            "output" None "octocat/Hello-World" Example.st0) = None.
Proof.
  exact (proj1
           (proj2 (write_failure_is_caught
                     (Example.world (Example.document "{}" (PDict Example.mit))
                        (Example.html 200 "# Hello")
                        (WriteError "# He" Example.disk_full)))
              "output" None "octocat/Hello-World" "octocat" "Hello-World" Example.st0
              {| status_code := 200; text := "{}"; json := inr (PDict Example.mit) |}
              Example.mit [("key", PStr "mit"); ("name", PStr "MIT License")]
              "MIT License"
              {| status_code := 200; text := "# Hello";
                 json := inl (Exn JSONDecodeError "Expecting value") |}
              Example.disk_full
              eq_refl eq_refl eq_refl eq_refl eq_refl eq_refl eq_refl eq_refl eq_refl
              ltac:(discriminate) (fun _ => eq_refl)
              (or_intror (ex_intro _ "# He" eq_refl)))).
Defined.

Lemma missing_branch_defaults_to_master_witness :
  url (readme_request "octocat" "Hello-World" (PStr "master") None)
  = "https://raw.githubusercontent.com/octocat/Hello-World/master/README.md".
Proof.
  apply (missing_branch_defaults_to_master
           (Example.world (Example.document "{}" (PDict Example.mit_no_branch))
              (Example.html 404 "404: Not Found") Written)
           "output" None "octocat/Hello-World" "octocat" "Hello-World" Example.st0
           {| status_code := 200; text := "{}";
              json := inr (PDict Example.mit_no_branch) |}
           Example.mit_no_branch [("name", PStr "MIT License")] "MIT License");
    reflexivity.
Defined.

Lemma empty_readme_skipped_witness :
  st_fs (final (process_repository
                  (Example.world (Example.document "{}" (PDict Example.mit))
                     (Example.html 200 "") Written)
                  "output" None "octocat/Hello-World" Example.st0))
  = st_fs Example.st0.
Proof.
  apply (empty_readme_skipped
           (Example.world (Example.document "{}" (PDict Example.mit))
              (Example.html 200 "") Written)
           "output" None "octocat/Hello-World" "octocat" "Hello-World" Example.st0
           {| status_code := 200; text := "{}"; json := inr (PDict Example.mit) |}
           Example.mit [("key", PStr "mit"); ("name", PStr "MIT License")]
           "MIT License"
           eq_refl eq_refl eq_refl eq_refl eq_refl eq_refl eq_refl
           {| status_code := 200; text := "";
              json := inl (Exn JSONDecodeError "Expecting value") |}
           eq_refl).
  left; split; reflexivity.
Defined.

Lemma readme_saved_verbatim_witness :
  files (st_fs (final (process_repository
                         (Example.world (Example.document "{}" (PDict Example.mit))
                            (Example.html 200 "# Hello") Written)
                         "output" None "octocat/Hello-World" Example.st0)))
  !! "output/Hello-World.md" = Some "# Hello".
Proof.
  apply (readme_saved_verbatim
           (Example.world (Example.document "{}" (PDict Example.mit))
              (Example.html 200 "# Hello") Written)
           "output" None "octocat/Hello-World" "octocat" "Hello-World" Example.st0
           {| status_code := 200; text := "{}"; json := inr (PDict Example.mit) |}
           Example.mit [("key", PStr "mit"); ("name", PStr "MIT License")]
           "MIT License"
           eq_refl eq_refl eq_refl eq_refl eq_refl eq_refl eq_refl
           {| status_code := 200; text := "# Hello";
              json := inl (Exn JSONDecodeError "Expecting value") |}
           eq_refl eq_refl).
  - discriminate.
  - intros _; reflexivity.
  - reflexivity.
Defined.

(** C5 as stated fails twice over: a README answered with status 200 and an
    empty text is not written, and neither is one whose write fails; in both
    runs the gate is passed, the fetch returns status 200, and no file
    exists afterwards. *)
Lemma fetched_readme_not_saved :
  let empty := Example.world (Example.document "{}" (PDict Example.mit))
                 (Example.html 200 "") Written in
  let full := Example.world (Example.document "{}" (PDict Example.mit))
                (Example.html 200 "# Hello") (OpenError Example.disk_full) in
  let run E := process_repositories E ["octocat/Hello-World"] "output" None
                 Example.st0 in
  raised (run empty) = None
  /\ List.map url (st_sent (final (run empty)))
     = ["https://api.github.com/repos/octocat/Hello-World";
        "https://raw.githubusercontent.com/octocat/Hello-World/main/README.md"]
  /\ files (st_fs (final (run empty))) = ∅
  /\ raised (run full) = None
  /\ files (st_fs (final (run full))) = ∅.
Proof. vm_compute; repeat split; reflexivity. Qed.

(** *** Failed fetches *)

(** A metadata request answered with another status than 200: one error and
    one warning, no README request, no file. *)
Lemma metadata_error_skipped E output_dir token full_repo owner repo s r :
  split_char "/" (strip full_repo) = [owner; repo] ->
  requests_get E (st_sent s) (info_request owner repo token) = Responded r ->
  status_code r <> 200 ->
  skipped_with_error E output_dir token full_repo s
  /\ st_sent (final (process_repository E output_dir token full_repo s))
     = st_sent s ++ [info_request owner repo token].
Proof.
  intros Hsplit Hget Hst; apply Z.eqb_neq in Hst.
  assert (Hres : exists s', process_repository E output_dir token full_repo s = Val tt s'
            /\ st_fs s' = st_fs s
            /\ st_sent s' = st_sent s ++ [info_request owner repo token]
            /\ exists new msg, st_log s' = st_log s ++ new
                               /\ at_level ERROR new = [msg]).
  { enter Hsplit. rewrite Hget, Hst; simpl. finish. }
  destruct Hres as (s' & Hs' & Hfs & Hsent & Hlog).
  unfold skipped_with_error; rewrite Hs'; simpl; repeat split; try assumption.
  apply body_returns_continues; now rewrite Hs'.
Qed.

(** A request that raises (no response at all) is not caught anywhere: the
    exception leaves the body and the loop, nothing is logged at error level
    by the body, and the entries after it are never looked at. *)
Lemma transport_exception_propagates E output_dir token full_repo owner repo s e rest :
  split_char "/" (strip full_repo) = [owner; repo] ->
  requests_get E (st_sent s) (info_request owner repo token) = Failed e ->
  exists s',
    process_repositories E (full_repo :: rest) output_dir token s = Raise e s'
    /\ st_sent s' = st_sent s ++ [info_request owner repo token]
    /\ st_fs s' = st_fs s
    /\ exists new, st_log s' = st_log s ++ new /\ at_level ERROR new = [].
Proof.
  intros Hsplit Hget.
  assert (Hres : exists s', process_repository E output_dir token full_repo s = Raise e s'
            /\ st_sent s' = st_sent s ++ [info_request owner repo token]
            /\ st_fs s' = st_fs s
            /\ exists new, st_log s' = st_log s ++ new /\ at_level ERROR new = []).
  { enter Hsplit. rewrite Hget; simpl. finish. }
  destruct Hres as (s' & Hs' & Hrest).
  exists s'; split; [|assumption].
  rewrite (body_raises_aborts E output_dir token full_repo rest s e);
    rewrite Hs'; reflexivity.
Qed.

(** A metadata request or a README request that is answered with a status
    other than 200 makes the body log one error record and skip that
    repository only: the body returns, no file changes, and the loop goes on
    with the entries after it. *)
Theorem http_error_skips_one_repository E output_dir token full_repo owner repo s :
  split_char "/" (strip full_repo) = [owner; repo] ->
  (exists r,
      requests_get E (st_sent s) (info_request owner repo token) = Responded r
      /\ status_code r <> 200)
  \/ (exists r d l name rd,
        requests_get E (st_sent s) (info_request owner repo token) = Responded r
        /\ status_code r = 200
        /\ json r = inr (PDict d)
        /\ dict_lookup "license" d = Some (PDict l)
        /\ dict_lookup "name" l = Some (PStr name)
        /\ license_allowed name = true
        /\ requests_get E (st_sent s ++ [info_request owner repo token])
             (readme_request owner repo (default_branch d) token) = Responded rd
        /\ status_code rd <> 200) ->
  skipped_with_error E output_dir token full_repo s.
Proof.
  intros Hsplit [(r & Hget & Hst)|(r & d & l & name & rd & H)].
  - now apply (metadata_error_skipped E output_dir token full_repo owner repo s r).
  - destruct H as (Hget & Hst & Hjs & Hlic & Hname & Hok & Hrd & Hne).
    now apply (readme_error_skipped E output_dir token full_repo owner repo s
                 r d l name Hsplit Hget Hst Hjs Hlic Hname Hok rd).
Qed.

Lemma http_error_skips_one_repository_witness :
  skipped_with_error
    (Example.world (Example.html 404 "Not Found") Example.unreachable Written)
    "output" None "octocat/Hello-World" Example.st0.
Proof.
  apply (http_error_skips_one_repository
           (Example.world (Example.html 404 "Not Found") Example.unreachable Written)
           "output" None "octocat/Hello-World" "octocat" "Hello-World" Example.st0).
  - reflexivity.
  - left; eexists; split; [reflexivity|discriminate].
Defined.

(** C1: on a transport exception the code does not do what the claim, the
    docstring of [get_repo_info] (the information "if successful, else
    None") and the skip on [None] in the loop say: the first entry's
    metadata request raises, the exception leaves [process_repositories], no
    error record is logged, and the second entry is never requested. *)
Lemma transport_exception_aborts_batch :
  let res := process_repositories
               (Example.world Example.unreachable Example.unreachable Written)
               ["octocat/Hello-World"; "octocat/Spoon-Knife"] "output" None
               Example.st0 in
  raised res = Some (Exn RequestException "Connection refused")
  /\ at_level ERROR (st_log (final res)) = []
  /\ List.map url (st_sent (final res))
     = ["https://api.github.com/repos/octocat/Hello-World"].
Proof. vm_compute; repeat split; reflexivity. Qed.

(** *** A license without a name *)

(** C10, amended: a license object that is not empty and has no [name] key
    gets the empty string as its name, which the gate rejects: the body
    returns after the one warning for a license that is not allowed, without
    a README request or a file. *)
Theorem nameless_license_rejected E output_dir token full_repo owner repo s r d l :
  split_char "/" (strip full_repo) = [owner; repo] ->
  requests_get E (st_sent s) (info_request owner repo token) = Responded r ->
  status_code r = 200 ->
  json r = inr (PDict d) ->
  dict_lookup "license" d = Some (PDict l) ->
  l <> [] ->
  dict_lookup "name" l = None ->
  let res := process_repository E output_dir token full_repo s in
  raised res = None
  /\ st_sent (final res) = st_sent s ++ [info_request owner repo token]
  /\ st_fs (final res) = st_fs s
  /\ (exists new,
        st_log (final res) = st_log s ++ new
        /\ at_level WARNING new
           = ["Repository '" +:+ strip full_repo
              +:+ "' has a license '' which is not allowed. Skipping."])
  /\ license_allowed "" = false
  /\ continues E output_dir token full_repo s.
Proof.
  intros Hsplit Hget Hst Hjs Hlic Hl Hname res.
  assert (Hres : exists s', res = Val tt s'
            /\ st_sent s' = st_sent s ++ [info_request owner repo token]
            /\ st_fs s' = st_fs s
            /\ exists new, st_log s' = st_log s ++ new
                 /\ at_level WARNING new
                    = ["Repository '" +:+ strip full_repo
                       +:+ "' has a license '' which is not allowed. Skipping."]).
  { subst res; enter Hsplit. rewrite Hget, Hst; simpl; rewrite Hjs; simpl.
    rewrite (truthy_dict _ _ _ Hlic), Hlic; simpl.
    rewrite (truthy_nonempty _ Hl), Hname; simpl. finish. }
  destruct Hres as (s' & Hs' & Hsent & Hfs & Hlog).
  rewrite Hs'; simpl; repeat split; try assumption.
  apply body_returns_continues; fold res; now rewrite Hs'.
Qed.

Lemma nameless_license_rejected_witness :
  at_level WARNING
    (st_log (final (process_repository
                      (Example.world
                         (Example.document "{}" (PDict Example.nameless_license))
                         Example.unreachable Written)
                      "output" None "octocat/Hello-World" Example.st0)))
  = ["Repository 'octocat/Hello-World' has a license '' which is not allowed. Skipping."].
Proof.
  destruct (nameless_license_rejected
              (Example.world
                 (Example.document "{}" (PDict Example.nameless_license))
                 Example.unreachable Written)
              "output" None "octocat/Hello-World" "octocat" "Hello-World" Example.st0
              {| status_code := 200; text := "{}";
                 json := inr (PDict Example.nameless_license) |}
              Example.nameless_license [("key", PStr "other")]
              eq_refl eq_refl eq_refl eq_refl eq_refl
              ltac:(discriminate) eq_refl)
    as (_ & _ & _ & (new & Hlog & Hwarn) & _).
  rewrite Hlog; exact Hwarn.
Defined.

(** C10 as stated fails on an empty license object: it is present and has
    no [name] key, yet it is handled as a missing license, with the warning
    of that case. *)
Lemma empty_license_counts_as_missing :
  let res := process_repository
               (Example.world (Example.document "{}" (PDict Example.empty_license))
                  Example.unreachable Written)
               "output" None "octocat/Hello-World" Example.st0 in
  dict_lookup "license" Example.empty_license = Some (PDict [])
  /\ dict_lookup "name" [] = None
  /\ raised res = None
  /\ at_level WARNING (st_log (final res))
     = ["Repository 'octocat/Hello-World' does not have a license. Skipping."].
Proof. vm_compute; repeat split; reflexivity. Qed.

(** *** The pipeline on concrete worlds *)

(** One well-formed, MIT-licensed repository with a README, between a blank
    and a malformed entry: its README is saved under its name, the two other
    entries are skipped, and the log tells the story in order. *)
Example happy_path :
  let res := process_repositories
               (Example.world (Example.document "{}" (PDict Example.mit))
                  (Example.html 200 "# Hello") Written)
               ["  "; "octocat/Hello-World "; "octocat"] "output" None
               Example.st0 in
  raised res = None
  /\ map_to_list (files (st_fs (final res))) = [("output/Hello-World.md", "# Hello")]
  /\ elements (dirs (st_fs (final res))) = ["output"]
  /\ List.map url (st_sent (final res))
     = ["https://api.github.com/repos/octocat/Hello-World";
        "https://raw.githubusercontent.com/octocat/Hello-World/main/README.md"]
  /\ List.map fst (st_log (final res))
     = [WARNING; DEBUG; DEBUG; INFO; DEBUG; INFO; DEBUG; INFO; ERROR]
  /\ at_level INFO (st_log (final res))
     = ["Successfully fetched data for repository: octocat/Hello-World";
        "Successfully downloaded README.md for repository: octocat/Hello-World";
        "README.md saved: output/Hello-World.md"].
Proof. vm_compute; repeat split; reflexivity. Qed.

(** A token adds the [Authorization] header to both requests; an empty token
    adds none. *)
Example token_header :
  headers (info_request "octocat" "Hello-World" (Some "s3cr3t"))
  = [("Authorization", "token s3cr3t")]
  /\ headers (readme_request "octocat" "Hello-World" (PStr "main") (Some ""))
     = [].
Proof. split; reflexivity. Qed.

(** ** Further properties of the pipeline *)

(** *** Exceptions that leave the loop *)

Lemma raised_aborts E output_dir token full_repo s e :
  raised (process_repository E output_dir token full_repo s) = Some e ->
  aborts E output_dir token full_repo s e.
Proof. intros H rest; now apply body_raises_aborts. Qed.

Lemma transport_exception_propagates_witness :
  exists s',
    process_repositories
      (Example.world Example.unreachable Example.unreachable Written)
      ["octocat/Hello-World"; "octocat/Spoon-Knife"] "output" None Example.st0
    = Raise (Exn RequestException "Connection refused") s'
    /\ st_sent s' = st_sent Example.st0 ++ [info_request "octocat" "Hello-World" None]
    /\ st_fs s' = st_fs Example.st0
    /\ exists new, st_log s' = st_log Example.st0 ++ new /\ at_level ERROR new = [].
Proof.
  apply (transport_exception_propagates
           (Example.world Example.unreachable Example.unreachable Written)
           "output" None "octocat/Hello-World" "octocat" "Hello-World" Example.st0
           (Exn RequestException "Connection refused") ["octocat/Spoon-Knife"]);
    reflexivity.
Defined.

Section Fetched.
Context (E : env) (output_dir : string) (token : option string).
Context (full_repo owner repo : string) (s : state) (r : response).

(** The entry is well formed and the metadata request is answered with
    status 200. *)
Hypothesis Hsplit : split_char "/" (strip full_repo) = [owner; repo].
Hypothesis Hinfo :
  requests_get E (st_sent s) (info_request owner repo token) = Responded r.
Hypothesis Hstatus : status_code r = 200.

(** Run the body up to [response.json()]. *)
Ltac fetch := enter Hsplit; rewrite Hinfo, Hstatus; simpl.

(** A body that is not JSON makes [response.json()] raise after the success
    record was logged; nobody catches the exception, so the run ends there:
    one request sent, no file touched, no warning and no error logged. *)
Theorem invalid_json_propagates e :
  json r = inl e ->
  let res := process_repository E output_dir token full_repo s in
  raised res = Some e
  /\ st_sent (final res) = st_sent s ++ [info_request owner repo token]
  /\ st_fs (final res) = st_fs s
  /\ (exists new,
        st_log (final res) = st_log s ++ new
        /\ at_level INFO new
           = ["Successfully fetched data for repository: " +:+ owner +:+ "/" +:+ repo]
        /\ at_level WARNING new = [] /\ at_level ERROR new = [])
  /\ aborts E output_dir token full_repo s e.
Proof.
  intros Hjs res.
  assert (Hres : exists s', res = Raise e s'
            /\ st_sent s' = st_sent s ++ [info_request owner repo token]
            /\ st_fs s' = st_fs s
            /\ exists new, st_log s' = st_log s ++ new
                 /\ at_level INFO new
                    = ["Successfully fetched data for repository: "
                       +:+ owner +:+ "/" +:+ repo]
                 /\ at_level WARNING new = [] /\ at_level ERROR new = []).
  { subst res; fetch. rewrite Hjs; simpl. finish. }
  destruct Hres as (s' & Hs' & Hsent & Hfs & Hlog).
  rewrite Hs'; simpl; repeat split; try assumption.
  apply raised_aborts; fold res; now rewrite Hs'.
Qed.

(** A JSON value that Python takes for false ([null], [false], [0], the
    empty string, list or object) is handled as a failed retrieval: one
    warning, no error record, no README request, no file. *)
Theorem falsy_metadata_skipped v :
  json r = inr v ->
  truthy v = false ->
  let res := process_repository E output_dir token full_repo s in
  raised res = None
  /\ st_sent (final res) = st_sent s ++ [info_request owner repo token]
  /\ st_fs (final res) = st_fs s
  /\ (exists new,
        st_log (final res) = st_log s ++ new
        /\ at_level WARNING new
           = ["Skipping repository '" +:+ strip full_repo
              +:+ "' due to failed data retrieval."]
        /\ at_level ERROR new = [])
  /\ continues E output_dir token full_repo s.
Proof.
  intros Hjs Hv res.
  assert (Hres : exists s', res = Val tt s'
            /\ st_sent s' = st_sent s ++ [info_request owner repo token]
            /\ st_fs s' = st_fs s
            /\ exists new, st_log s' = st_log s ++ new
                 /\ at_level WARNING new
                    = ["Skipping repository '" +:+ strip full_repo
                       +:+ "' due to failed data retrieval."]
                 /\ at_level ERROR new = []).
  { subst res; fetch. rewrite Hjs; simpl. rewrite Hv; simpl. finish. }
  destruct Hres as (s' & Hs' & Hsent & Hfs & Hlog).
  rewrite Hs'; simpl; repeat split; try assumption.
  apply body_returns_continues; fold res; now rewrite Hs'.
Qed.

(** A JSON value that is true for Python without being an object (a list, a
    string, a number, [true]) has no [get]: [repo_data.get("license")]
    raises [AttributeError], which ends the run. *)
Theorem non_object_metadata_raises v :
  json r = inr v ->
  truthy v = true ->
  (forall d, v <> PDict d) ->
  let res := process_repository E output_dir token full_repo s in
  let e := Exn AttributeError
             ("'" +:+ type_name v +:+ "' object has no attribute 'get'") in
  raised res = Some e
  /\ st_sent (final res) = st_sent s ++ [info_request owner repo token]
  /\ st_fs (final res) = st_fs s
  /\ aborts E output_dir token full_repo s e.
Proof.
  intros Hjs Hv Hd res e.
  assert (Hres : exists s', res = Raise e s'
            /\ st_sent s' = st_sent s ++ [info_request owner repo token]
            /\ st_fs s' = st_fs s).
  { subst res e; fetch. rewrite Hjs; simpl. rewrite Hv; simpl.
    destruct v; try (now finish). now destruct (Hd d). }
  destruct Hres as (s' & Hs' & Hsent & Hfs).
  rewrite Hs'; simpl; repeat split; try assumption.
  apply raised_aborts; fold res; now rewrite Hs'.
Qed.

End Fetched.

(** *** What the license field can hold *)

Section Document.
Context (E : env) (output_dir : string) (token : option string).
Context (full_repo owner repo : string) (s : state).
Context (r : response) (d : list (string * value)).

(** The entry is well formed and the metadata request is answered with
    status 200 and the JSON object [d]. *)
Hypothesis Hsplit : split_char "/" (strip full_repo) = [owner; repo].
Hypothesis Hinfo :
  requests_get E (st_sent s) (info_request owner repo token) = Responded r.
Hypothesis Hstatus : status_code r = 200.
Hypothesis Hjson : json r = inr (PDict d).

(** Run the body up to the license check. *)
Ltac document Hlic :=
  enter Hsplit; rewrite Hinfo, Hstatus; simpl; rewrite Hjson; simpl;
  rewrite (truthy_dict _ _ _ Hlic), Hlic; simpl.

(** A [license] that is there but false for Python, as the [null] GitHub
    answers for a repository without a license, is handled as no license:
    one warning, no README request, no file. *)
Theorem null_license_skipped v :
  dict_lookup "license" d = Some v ->
  truthy v = false ->
  let res := process_repository E output_dir token full_repo s in
  raised res = None
  /\ st_sent (final res) = st_sent s ++ [info_request owner repo token]
  /\ st_fs (final res) = st_fs s
  /\ (exists new,
        st_log (final res) = st_log s ++ new
        /\ at_level WARNING new
           = ["Repository '" +:+ strip full_repo
              +:+ "' does not have a license. Skipping."]
        /\ at_level ERROR new = [])
  /\ continues E output_dir token full_repo s.
Proof.
  intros Hlic Hv res.
  assert (Hres : exists s', res = Val tt s'
            /\ st_sent s' = st_sent s ++ [info_request owner repo token]
            /\ st_fs s' = st_fs s
            /\ exists new, st_log s' = st_log s ++ new
                 /\ at_level WARNING new
                    = ["Repository '" +:+ strip full_repo
                       +:+ "' does not have a license. Skipping."]
                 /\ at_level ERROR new = []).
  { subst res; document Hlic. rewrite Hv; simpl. finish. }
  destruct Hres as (s' & Hs' & Hsent & Hfs & Hlog).
  rewrite Hs'; simpl; repeat split; try assumption.
  apply body_returns_continues; fold res; now rewrite Hs'.
Qed.

(** A [license] that is true for Python without being an object (a string,
    say) has no [get]: [license_info.get("name", "")] raises
    [AttributeError], which ends the run before any README request. *)
Theorem non_object_license_raises v :
  dict_lookup "license" d = Some v ->
  truthy v = true ->
  (forall l, v <> PDict l) ->
  let res := process_repository E output_dir token full_repo s in
  raised res = Some (no_attribute v "get")
  /\ st_sent (final res) = st_sent s ++ [info_request owner repo token]
  /\ st_fs (final res) = st_fs s
  /\ aborts E output_dir token full_repo s (no_attribute v "get").
Proof.
  intros Hlic Hv Hshape res.
  assert (Hres : exists s', res = Raise (no_attribute v "get") s'
            /\ st_sent s' = st_sent s ++ [info_request owner repo token]
            /\ st_fs s' = st_fs s).
  { subst res; document Hlic. rewrite Hv; simpl.
    destruct v; try (now finish). now destruct (Hshape d0). }
  destruct Hres as (s' & Hs' & Hsent & Hfs).
  rewrite Hs'; simpl; repeat split; try assumption.
  apply raised_aborts; fold res; now rewrite Hs'.
Qed.

(** A license object whose [name] is there but is not a string ([null], a
    number) has no [lower]: [AttributeError] is raised and ends the run
    before any README request. *)
Theorem non_string_name_raises l n :
  dict_lookup "license" d = Some (PDict l) ->
  dict_lookup "name" l = Some n ->
  (forall x, n <> PStr x) ->
  let res := process_repository E output_dir token full_repo s in
  raised res = Some (no_attribute n "lower")
  /\ st_sent (final res) = st_sent s ++ [info_request owner repo token]
  /\ st_fs (final res) = st_fs s
  /\ aborts E output_dir token full_repo s (no_attribute n "lower").
Proof.
  intros Hlic Hn Hshape res.
  assert (Hres : exists s', res = Raise (no_attribute n "lower") s'
            /\ st_sent s' = st_sent s ++ [info_request owner repo token]
            /\ st_fs s' = st_fs s).
  { subst res; document Hlic.
    rewrite (truthy_dict _ _ _ Hn), Hn; simpl.
    destruct n; try (now finish). now destruct (Hshape s0). }
  destruct Hres as (s' & Hs' & Hsent & Hfs).
  rewrite Hs'; simpl; repeat split; try assumption.
  apply raised_aborts; fold res; now rewrite Hs'.
Qed.

Context (l : list (string * value)) (name : string).
Hypothesis Hlicense : dict_lookup "license" d = Some (PDict l).
Hypothesis Hname : dict_lookup "name" l = Some (PStr name).

(** The license gate stands between the two requests: the README is
    requested exactly when the name passes [license_allowed]; a name that
    does not pass costs one warning, which quotes the name in lower case,
    and the body returns with no file touched. *)
Theorem license_gate_decides_fetch :
  let res := process_repository E output_dir token full_repo s in
  (license_allowed name = true
   /\ st_sent (final res)
      = st_sent s ++ [info_request owner repo token;
                      readme_request owner repo (default_branch d) token])
  \/ (license_allowed name = false
      /\ raised res = None
      /\ st_sent (final res) = st_sent s ++ [info_request owner repo token]
      /\ st_fs (final res) = st_fs s
      /\ (exists new,
            st_log (final res) = st_log s ++ new
            /\ at_level WARNING new
               = ["Repository '" +:+ strip full_repo +:+ "' has a license '"
                  +:+ lower name +:+ "' which is not allowed. Skipping."])
      /\ continues E output_dir token full_repo s).
Proof.
  intros res.
  destruct (license_allowed name) eqn:Hok; [left|right]; split; try reflexivity.
  - subst res.
    rewrite (gate_decides_download E output_dir token full_repo owner repo s r d l name)
      by assumption.
    now rewrite Hok.
  - assert (Hres : exists s', res = Val tt s'
              /\ st_sent s' = st_sent s ++ [info_request owner repo token]
              /\ st_fs s' = st_fs s
              /\ exists new, st_log s' = st_log s ++ new
                   /\ at_level WARNING new
                      = ["Repository '" +:+ strip full_repo +:+ "' has a license '"
                         +:+ lower name +:+ "' which is not allowed. Skipping."]).
    { subst res; document Hlicense.
      rewrite (truthy_dict _ _ _ Hname), Hname; simpl.
      unfold license_allowed in Hok; rewrite Hok; simpl. finish. }
    destruct Hres as (s' & Hs' & Hsent & Hfs & Hlog).
    rewrite Hs'; simpl; repeat split; try assumption.
    apply body_returns_continues; fold res; now rewrite Hs'.
Qed.

Hypothesis Hallowed : license_allowed name = true.

(** Run the body up to the README request. *)
Ltac accept :=
  document Hlicense; rewrite (truthy_dict _ _ _ Hname), Hname; simpl;
  let H := fresh in
  pose proof Hallowed as H; unfold license_allowed in H; rewrite H; clear H; simpl;
  fold (default_branch d); unfold download_readme; run.

(** A [default_branch] given as a string is put into the README address as
    it is, slashes included. *)
Theorem given_branch_is_requested branch :
  dict_lookup "default_branch" d = Some (PStr branch) ->
  let res := process_repository E output_dir token full_repo s in
  exists rq,
    st_sent (final res) = st_sent s ++ [info_request owner repo token; rq]
    /\ url rq = GITHUB_RAW_URL +:+ owner +:+ "/" +:+ repo +:+ "/" +:+ branch
                +:+ "/README.md"
    /\ headers rq = auth_headers token.
Proof.
  intros Hbranch res; subst res.
  rewrite (gate_decides_download E output_dir token full_repo owner repo s r d l name)
    by assumption.
  rewrite Hallowed; unfold default_branch; rewrite Hbranch.
  eexists; split; [reflexivity|split; reflexivity].
Qed.

(** A README request that raises is not caught either: the exception ends
    the run after two requests, with no file touched and no error logged. *)
Theorem readme_exception_propagates e :
  requests_get E (st_sent s ++ [info_request owner repo token])
    (readme_request owner repo (default_branch d) token) = Failed e ->
  let res := process_repository E output_dir token full_repo s in
  raised res = Some e
  /\ st_sent (final res)
     = st_sent s ++ [info_request owner repo token;
                     readme_request owner repo (default_branch d) token]
  /\ st_fs (final res) = st_fs s
  /\ (exists new,
        st_log (final res) = st_log s ++ new
        /\ at_level WARNING new = [] /\ at_level ERROR new = [])
  /\ aborts E output_dir token full_repo s e.
Proof.
  intros Hfail res.
  assert (Hres : exists s', res = Raise e s'
            /\ st_sent s' = st_sent s ++ [info_request owner repo token;
                 readme_request owner repo (default_branch d) token]
            /\ st_fs s' = st_fs s
            /\ exists new, st_log s' = st_log s ++ new
                 /\ at_level WARNING new = [] /\ at_level ERROR new = []).
  { subst res; accept. rewrite Hfail; simpl. finish. }
  destruct Hres as (s' & Hs' & Hsent & Hfs & Hlog).
  rewrite Hs'; simpl; repeat split; try assumption.
  apply raised_aborts; fold res; now rewrite Hs'.
Qed.

End Document.

Lemma invalid_json_propagates_witness :
  raised (process_repository
            (Example.world (Responded Sample.page) Example.unreachable Written)
            "output" None "octocat/Hello-World" Example.st0)
  = Some (Exn JSONDecodeError "Expecting value: line 1 column 1 (char 0)").
Proof.
  apply (invalid_json_propagates
           (Example.world (Responded Sample.page) Example.unreachable Written)
           "output" None "octocat/Hello-World" "octocat" "Hello-World" Example.st0
           Sample.page eq_refl eq_refl eq_refl
           (Exn JSONDecodeError "Expecting value: line 1 column 1 (char 0)") eq_refl).
Defined.

Lemma falsy_metadata_skipped_witness :
  raised (process_repository (Sample.serving (PList []))
            "output" None "octocat/Hello-World" Example.st0) = None.
Proof.
  apply (falsy_metadata_skipped (Sample.serving (PList []))
           "output" None "octocat/Hello-World" "octocat" "Hello-World" Example.st0
           (Sample.answer (PList [])) eq_refl eq_refl eq_refl
           (PList []) eq_refl eq_refl).
Defined.

Lemma non_object_metadata_raises_witness :
  raised (process_repository (Sample.serving (PList [PInt 1]))
            "output" None "octocat/Hello-World" Example.st0)
  = Some (Exn AttributeError "'list' object has no attribute 'get'").
Proof.
  apply (non_object_metadata_raises (Sample.serving (PList [PInt 1]))
           "output" None "octocat/Hello-World" "octocat" "Hello-World" Example.st0
           (Sample.answer (PList [PInt 1])) eq_refl eq_refl eq_refl
           (PList [PInt 1]) eq_refl eq_refl).
  discriminate.
Defined.

Lemma null_license_skipped_witness :
  raised (process_repository (Sample.serving (PDict Sample.null_license))
            "output" None "octocat/Hello-World" Example.st0) = None.
Proof.
  apply (null_license_skipped (Sample.serving (PDict Sample.null_license))
           "output" None "octocat/Hello-World" "octocat" "Hello-World" Example.st0
           (Sample.answer (PDict Sample.null_license)) Sample.null_license
           eq_refl eq_refl eq_refl eq_refl PNone eq_refl eq_refl).
Defined.

Lemma non_object_license_raises_witness :
  raised (process_repository (Sample.serving (PDict Sample.license_as_text))
            "output" None "octocat/Hello-World" Example.st0)
  = Some (Exn AttributeError "'str' object has no attribute 'get'").
Proof.
  apply (non_object_license_raises (Sample.serving (PDict Sample.license_as_text))
           "output" None "octocat/Hello-World" "octocat" "Hello-World" Example.st0
           (Sample.answer (PDict Sample.license_as_text)) Sample.license_as_text
           eq_refl eq_refl eq_refl eq_refl (PStr "MIT License") eq_refl eq_refl).
  discriminate.
Defined.

Lemma non_string_name_raises_witness :
  raised (process_repository (Sample.serving (PDict Sample.null_name))
            "output" None "octocat/Hello-World" Example.st0)
  = Some (Exn AttributeError "'NoneType' object has no attribute 'lower'").
Proof.
  apply (non_string_name_raises (Sample.serving (PDict Sample.null_name))
           "output" None "octocat/Hello-World" "octocat" "Hello-World" Example.st0
           (Sample.answer (PDict Sample.null_name)) Sample.null_name
           eq_refl eq_refl eq_refl eq_refl
           [("key", PStr "other"); ("name", PNone)] PNone eq_refl eq_refl).
  discriminate.
Defined.

Lemma license_gate_decides_fetch_witness :
  raised (process_repository (Sample.serving (PDict Sample.gpl))
            "output" None "octocat/Hello-World" Example.st0) = None.
Proof.
  destruct (license_gate_decides_fetch (Sample.serving (PDict Sample.gpl))
              "output" None "octocat/Hello-World" "octocat" "Hello-World" Example.st0
              (Sample.answer (PDict Sample.gpl)) Sample.gpl
              eq_refl eq_refl eq_refl eq_refl
              [("key", PStr "gpl-3.0");
               ("name", PStr "GNU General Public License v3.0")]
              "GNU General Public License v3.0" eq_refl eq_refl)
    as [[Hyes _]|(_ & Hreturns & _)].
  - vm_compute in Hyes; discriminate.
  - exact Hreturns.
Defined.

Lemma given_branch_is_requested_witness :
  exists rq,
    st_sent (final (process_repository (Sample.serving (PDict Sample.develop))
                      "output" None "octocat/Hello-World" Example.st0))
    = st_sent Example.st0 ++ [info_request "octocat" "Hello-World" None; rq]
    /\ url rq = GITHUB_RAW_URL +:+ "octocat" +:+ "/" +:+ "Hello-World" +:+ "/"
                +:+ "release/1.x" +:+ "/README.md"
    /\ headers rq = auth_headers None.
Proof.
  apply (given_branch_is_requested (Sample.serving (PDict Sample.develop))
           "output" None "octocat/Hello-World" "octocat" "Hello-World" Example.st0
           (Sample.answer (PDict Sample.develop)) Sample.develop
           eq_refl eq_refl eq_refl eq_refl
           [("name", PStr "MIT License")] "MIT License" eq_refl eq_refl eq_refl
           "release/1.x" eq_refl).
Defined.

Lemma readme_exception_propagates_witness :
  raised (process_repository
            (Example.world (Responded (Sample.answer (PDict Example.mit)))
               Example.unreachable Written)
            "output" None "octocat/Hello-World" Example.st0)
  = Some (Exn RequestException "Connection refused").
Proof.
  apply (readme_exception_propagates
           (Example.world (Responded (Sample.answer (PDict Example.mit)))
              Example.unreachable Written)
           "output" None "octocat/Hello-World" "octocat" "Hello-World" Example.st0
           (Sample.answer (PDict Example.mit)) Example.mit
           eq_refl eq_refl eq_refl eq_refl
           [("key", PStr "mit"); ("name", PStr "MIT License")] "MIT License"
           eq_refl eq_refl eq_refl
           (Exn RequestException "Connection refused") eq_refl).
Defined.

(** *** What a run leaves behind, whatever the world answers *)

Local Arguments save_readme : simpl never.
Local Arguments lower : simpl never.

(** Split on the innermost undecided test of the goal. *)
Ltac inner_case :=
  match goal with
  | |- context [match ?x with _ => _ end] =>
      lazymatch x with
      | context [match _ with _ => _ end] => fail
      | _ => destruct x eqn:?; simpl
      end
  end.

(** Every way through the loop body, [save_readme] left folded. *)
Ltac body_cases Hsplit :=
  unfold process_repository;
  destruct (String.eqb (strip _) "") eqn:?; simpl;
  [|destruct (split_char "/" (strip _)) as [|? [|? [|? ?]]] eqn:Hsplit; simpl;
    [| |unfold get_repo_info, download_readme, get_method, lower_method; run;
        repeat inner_case|]].

Lemma extends_refl s : extends s s.
Proof.
  repeat split; try (exists []; now rewrite app_nil_r); auto.
Qed.

Lemma extends_trans s1 s2 s3 : extends s1 s2 -> extends s2 s3 -> extends s1 s3.
Proof.
  intros ((lg1 & Hl1) & (rq1 & Hr1) & Hd1 & Hf1) ((lg2 & Hl2) & (rq2 & Hr2) & Hd2 & Hf2).
  repeat split.
  - exists (lg1 ++ lg2); now rewrite Hl2, Hl1, app_assoc.
  - exists (rq1 ++ rq2); now rewrite Hr2, Hr1, app_assoc.
  - set_solver.
  - auto.
Qed.

Lemma save_readme_extends E content filename directory s :
  extends s (final (save_readme E content filename directory s)).
Proof.
  assert (Hset : forall (fs : gmap string string) path c p,
            is_Some (fs !! p) -> is_Some (<[path := c]> fs !! p)).
  { intros fs path c p Hp; destruct (decide (path = p)) as [->|];
      rewrite ?lookup_insert_eq, ?lookup_insert_ne by assumption; eauto. }
  unfold extends, save_readme; run.
  destruct (path_exists directory (st_fs s)); simpl.
  - destruct (open_write _ _ _ _); simpl; rewrite <- ?app_assoc;
      (split; [|split; [|split]]); eauto; exists []; now rewrite app_nil_r.
  - pose proof (makedirs_files (makedirs_error E) directory (st_fs s)) as Hf.
    pose proof (makedirs_dirs (makedirs_error E) directory (st_fs s)) as Hd.
    pose proof (made_dirs directory (st_fs s)) as Hmd.
    destruct (makedirs _ _ _) as [[e|] fs1]; simpl in *.
    + (split; [|split; [|split]]); eauto; try (exists []; now rewrite app_nil_r).
      now rewrite Hf.
    + destruct (open_write _ _ _ _); simpl; rewrite <- ?app_assoc, ?made_files;
        (split; [|split; [|split]]); eauto; exists []; now rewrite app_nil_r.
Qed.

(** The directories [save_readme] makes are the directory it is given and
    what that path starts with. *)
Lemma save_readme_dirs E content filename directory s d :
  d ∈ dirs (st_fs (final (save_readme E content filename directory s))) ->
  d ∈ dirs (st_fs s) \/ leading_part d directory.
Proof.
  unfold save_readme; run.
  destruct (path_exists directory (st_fs s)); simpl.
  - destruct (open_write _ _ _ _); simpl; auto.
  - pose proof (makedirs_new (makedirs_error E) directory (st_fs s) d) as Hnew.
    destruct (makedirs _ _ _) as [[e|] fs1]; simpl in *; [assumption|].
    destruct (open_write _ _ _ _); simpl; apply made_new.
Qed.

(** The requests of one entry: none for an entry that is not of the form
    owner/repo, else the metadata request, alone or followed by one README
    request. *)
Lemma body_sent E output_dir token full_repo s :
  let res := process_repository E output_dir token full_repo s in
  (length (split_char "/" (strip full_repo)) <> 2%nat
   /\ st_sent (final res) = st_sent s)
  \/ exists owner repo,
       split_char "/" (strip full_repo) = [owner; repo]
       /\ (st_sent (final res) = st_sent s ++ [info_request owner repo token]
           \/ exists branch,
                st_sent (final res)
                = st_sent s ++ [info_request owner repo token;
                                readme_request owner repo branch token]).
Proof.
  intros res; subst res.
  destruct (Nat.eq_dec (length (split_char "/" (strip full_repo))) 2%nat)
    as [Htwo|Hnot].
  - right. body_cases Hsplit; try discriminate Htwo.
    { match goal with H : String.eqb _ _ = true |- _ =>
        apply String.eqb_eq in H; rewrite H in Htwo; discriminate Htwo end. }
    all: rewrite ?save_readme_sent; simpl; rewrite <- ?app_assoc; simpl.
    all: do 2 eexists; split; [reflexivity|];
      first [ left; reflexivity | right; eexists; reflexivity ].
  - left; split; [assumption|].
    unfold process_repository.
    destruct (String.eqb (strip full_repo) ""); [reflexivity|].
    destruct (split_char "/" (strip full_repo)) as [|a [|b [|c l]]];
      try reflexivity.
    now destruct Hnot.
Qed.

(** The file system after one entry: as before, or as [save_readme] leaves
    it when called for the entry's repository name. *)
Lemma body_fs E output_dir token full_repo s :
  let res := process_repository E output_dir token full_repo s in
  st_fs (final res) = st_fs s
  \/ exists owner repo content s1,
       split_char "/" (strip full_repo) = [owner; repo]
       /\ st_fs s1 = st_fs s
       /\ st_fs (final res)
          = st_fs (final (save_readme E content repo output_dir s1)).
Proof.
  intros res; subst res. body_cases Hsplit.
  all: first [ left; reflexivity
             | right; do 4 eexists; split; [reflexivity|];
               split; [|reflexivity]; reflexivity ].
Qed.

Lemma body_extends E output_dir token full_repo s :
  extends s (final (process_repository E output_dir token full_repo s)).
Proof.
  body_cases Hsplit.
  all: try (eapply extends_trans; [|apply save_readme_extends]).
  all: unfold extends; simpl; rewrite <- ?app_assoc;
    repeat split; eauto; exists []; now rewrite app_nil_r.
Qed.

Lemma prefix_append a b : String.prefix a (a +:+ b) = true.
Proof.
  induction a as [|c a IH]; simpl; [now destruct b|].
  destruct (Ascii.ascii_dec c c); [assumption|congruence].
Qed.

Lemma info_request_github owner repo token :
  github_request token (info_request owner repo token).
Proof. split; [reflexivity|left; apply prefix_append]. Qed.

Lemma readme_request_github owner repo branch token :
  github_request token (readme_request owner repo branch token).
Proof. split; [reflexivity|right; apply prefix_append]. Qed.

Section Run.
Context (E : env) (output_dir : string) (token : option string).

(** The state after the first entry is where the rest of the list starts,
    when the body returns, and where the run ends, when it raises. *)
Lemma run_cons full_repo rest s :
  let s1 := final (process_repository E output_dir token full_repo s) in
  final (process_repositories E (full_repo :: rest) output_dir token s) = s1
  \/ final (process_repositories E (full_repo :: rest) output_dir token s)
     = final (process_repositories E rest output_dir token s1).
Proof.
  simpl; unfold mbind, M_bind.
  destruct (process_repository E output_dir token full_repo s); simpl; auto.
Qed.

(** A run only adds: to the log, to the requests sent, to the directories
    and to the files; whether it returns or ends on an exception. *)
Theorem run_only_adds repos s :
  extends s (final (process_repositories E repos output_dir token s)).
Proof.
  revert s; induction repos as [|full_repo rest IH]; intros s.
  - apply extends_refl.
  - pose proof (body_extends E output_dir token full_repo s) as Hbody.
    destruct (run_cons full_repo rest s) as [-> | ->]; [assumption|].
    eapply extends_trans; [exact Hbody|apply IH].
Qed.

(** A run sends at most two requests per entry, each to one of the two
    GitHub hosts and with the headers the token gives; whether it returns
    or ends on an exception. *)
Theorem run_requests repos s :
  exists rqs,
    st_sent (final (process_repositories E repos output_dir token s))
    = st_sent s ++ rqs
    /\ Forall (github_request token) rqs
    /\ (length rqs <= 2 * length repos)%nat.
Proof.
  revert s; induction repos as [|full_repo rest IH]; intros s.
  - exists []; simpl; rewrite app_nil_r; repeat split; auto.
  - assert (Hbody : exists rqs,
              st_sent (final (process_repository E output_dir token full_repo s))
              = st_sent s ++ rqs
              /\ Forall (github_request token) rqs /\ (length rqs <= 2)%nat).
    { destruct (body_sent E output_dir token full_repo s)
        as [[_ H]|(owner & repo & _ & [H|(branch & H)])]; rewrite H.
      - exists []; rewrite app_nil_r; repeat split; auto.
      - eexists; repeat split; eauto using info_request_github.
      - eexists; repeat split;
          eauto using info_request_github, readme_request_github. }
    destruct Hbody as (rqs1 & Hs1 & Hok1 & Hlen1).
    destruct (run_cons full_repo rest s) as [-> | ->].
    + exists rqs1; repeat split; try assumption. simpl length; lia.
    + destruct (IH (final (process_repository E output_dir token full_repo s)))
        as (rqs2 & Hs2 & Hok2 & Hlen2).
      exists (rqs1 ++ rqs2); rewrite Hs2, Hs1, app_assoc; repeat split.
      * now apply Forall_app.
      * rewrite length_app; simpl length; lia.
Qed.

(** A run writes nowhere but at the paths [save_readme] derives from the
    well-formed entries of the list (the output directory joined with
    [<repo>.md]), and every directory it makes is the output directory or
    what that path starts with: the parents [os.makedirs] makes on its way.
    What the handlers of the logger write is not among [files]. *)
Theorem run_writes_only_readmes repos s :
  let s' := final (process_repositories E repos output_dir token s) in
  (forall p, ~ In p (saved_paths output_dir repos) ->
             files (st_fs s') !! p = files (st_fs s) !! p)
  /\ (forall d, d ∈ dirs (st_fs s') ->
                d ∈ dirs (st_fs s) \/ leading_part d output_dir).
Proof.
  revert s; induction repos as [|full_repo rest IH]; intros s; cbv zeta.
  - split; [reflexivity|now left].
  - assert (Hbody :
      let s1 := final (process_repository E output_dir token full_repo s) in
      (forall p, ~ In p (saved_paths output_dir [full_repo]) ->
                 files (st_fs s1) !! p = files (st_fs s) !! p)
      /\ (forall d, d ∈ dirs (st_fs s1) ->
                    d ∈ dirs (st_fs s) \/ leading_part d output_dir)).
    { destruct (body_fs E output_dir token full_repo s)
        as [H|(owner & repo & content & s1 & Hsplit & Hs1 & H)]; cbv zeta; rewrite H.
      - split; [reflexivity|now left].
      - rewrite <- Hs1; split; [|intros d; apply save_readme_dirs].
        intros p Hp; apply save_readme_frame.
        intros ->; apply Hp; simpl; rewrite Hsplit; simpl; now left. }
    destruct Hbody as [Hfiles1 Hdirs1].
    assert (Hsplit_paths : forall p,
              ~ In p (saved_paths output_dir (full_repo :: rest)) ->
              ~ In p (saved_paths output_dir [full_repo])
              /\ ~ In p (saved_paths output_dir rest)).
    { intros p Hp; simpl in *; rewrite app_nil_r; rewrite in_app_iff in Hp; tauto. }
    destruct (run_cons full_repo rest s) as [-> | ->].
    + split; [|assumption].
      intros p Hp; apply Hfiles1; now apply Hsplit_paths.
    + destruct (IH (final (process_repository E output_dir token full_repo s)))
        as [Hfiles2 Hdirs2].
      split.
      * intros p Hp; destruct (Hsplit_paths p Hp) as [Hp1 Hp2].
        now rewrite Hfiles2, Hfiles1.
      * intros d Hd; destruct (Hdirs2 d Hd) as [H|H]; [now apply Hdirs1|now right].
Qed.

End Run.

(** *** Persistence, case by case *)

Lemma path_exists_set_file directory path content fs :
  path_exists directory fs = true ->
  path_exists directory (set_file path content fs) = true.
Proof.
  unfold path_exists, set_file; simpl; intros H.
  apply orb_true_iff in H; apply orb_true_iff.
  destruct H as [H|H]; [now left|right].
  apply bool_decide_eq_true in H; apply bool_decide_eq_true.
  destruct (decide (path = directory)) as [->|Hne].
  - rewrite lookup_insert_eq; eauto.
  - now rewrite lookup_insert_ne.
Qed.

Lemma path_exists_add_dir directory fs :
  path_exists directory (add_dir directory fs) = true.
Proof.
  unfold path_exists, add_dir; simpl; apply orb_true_iff; left.
  apply bool_decide_eq_true; set_solver.
Qed.

(** [os.makedirs] sits before the [try]: an exception from there leaves
    [save_readme], with the log as it was and the directories made before
    the failure. *)
Lemma save_readme_makedirs_raises E content filename directory s e :
  path_exists directory (st_fs s) = false ->
  fst (makedirs (makedirs_error E) directory (st_fs s)) = Some e ->
  save_readme E content filename directory s
  = Raise e (with_fs (snd (makedirs (makedirs_error E) directory (st_fs s))) s).
Proof.
  intros Hmissing Hfail; unfold save_readme; run. rewrite Hmissing; simpl.
  destruct (makedirs _ _ _) as [[e'|] fs1]; simpl in *; congruence.
Qed.

(** For a repository that passed the license gate and whose README came with
    status 200 and a text that is not empty, the body ends in the call of
    [save_readme], after two requests and no warning or error. *)
Lemma accepted_body_saves E output_dir token full_repo owner repo s r d l name rd :
  split_char "/" (strip full_repo) = [owner; repo] ->
  requests_get E (st_sent s) (info_request owner repo token) = Responded r ->
  status_code r = 200 ->
  json r = inr (PDict d) ->
  dict_lookup "license" d = Some (PDict l) ->
  dict_lookup "name" l = Some (PStr name) ->
  license_allowed name = true ->
  requests_get E (st_sent s ++ [info_request owner repo token])
    (readme_request owner repo (default_branch d) token) = Responded rd ->
  status_code rd = 200 ->
  text rd <> "" ->
  exists s1,
    process_repository E output_dir token full_repo s
    = save_readme E (text rd) repo output_dir s1
    /\ st_fs s1 = st_fs s
    /\ st_sent s1 = st_sent s ++ [info_request owner repo token;
                                  readme_request owner repo (default_branch d) token]
    /\ exists pre,
         st_log s1 = st_log s ++ pre
         /\ at_level WARNING pre = [] /\ at_level ERROR pre = [].
Proof.
  intros Hsplit Hinfo Hst Hjs Hlic Hname Hok Hreadme H200 Htext.
  enter Hsplit; rewrite Hinfo, Hst; simpl; rewrite Hjs; simpl.
  rewrite (truthy_dict _ _ _ Hlic), Hlic; simpl.
  rewrite (truthy_dict _ _ _ Hname), Hname; simpl.
  unfold license_allowed in Hok; rewrite Hok; simpl.
  fold (default_branch d); unfold download_readme; run.
  rewrite Hreadme, H200; simpl.
  destruct (text rd) as [|c t] eqn:Ht; [congruence|].
  eexists; split; [reflexivity|]; simpl.
  split; [reflexivity|]. split; [now rewrite <- app_assoc|].
  eexists; split; [rewrite <- ?app_assoc; reflexivity|split; reflexivity].
Qed.

(** [os.makedirs] sits before the [try] of [save_readme]: for a repository
    that passed the license gate and whose README was fetched, when the
    output directory is missing and [os.makedirs] raises, the exception
    leaves [save_readme], the body and the loop. No file is written, nothing
    is logged as a warning or an error, and the only new directories are the
    leading parts of the output directory made before the failure. *)
Theorem makedirs_failure_escapes E output_dir token full_repo owner repo s r d l name rd e :
  split_char "/" (strip full_repo) = [owner; repo] ->
  requests_get E (st_sent s) (info_request owner repo token) = Responded r ->
  status_code r = 200 ->
  json r = inr (PDict d) ->
  dict_lookup "license" d = Some (PDict l) ->
  dict_lookup "name" l = Some (PStr name) ->
  license_allowed name = true ->
  requests_get E (st_sent s ++ [info_request owner repo token])
    (readme_request owner repo (default_branch d) token) = Responded rd ->
  status_code rd = 200 ->
  text rd <> "" ->
  path_exists output_dir (st_fs s) = false ->
  fst (makedirs (makedirs_error E) output_dir (st_fs s)) = Some e ->
  let res := process_repository E output_dir token full_repo s in
  raised res = Some e
  /\ files (st_fs (final res)) = files (st_fs s)
  /\ (forall dir, dir ∈ dirs (st_fs (final res)) ->
                  dir ∈ dirs (st_fs s) \/ leading_part dir output_dir)
  /\ (exists new,
        st_log (final res) = st_log s ++ new
        /\ at_level WARNING new = [] /\ at_level ERROR new = [])
  /\ aborts E output_dir token full_repo s e.
Proof.
  intros Hsplit Hinfo Hst Hjs Hlic Hname Hok Hreadme H200 Htext Hmissing Hfail res.
  destruct (accepted_body_saves E output_dir token full_repo owner repo s r d l name rd
              Hsplit Hinfo Hst Hjs Hlic Hname Hok Hreadme H200 Htext)
    as (s1 & Hbody & Hfs & Hsent & pre & Hlog & Hwarn & Herr).
  pose proof (save_readme_makedirs_raises E (text rd) repo output_dir s1 e) as Hsave.
  rewrite Hfs in Hsave; specialize (Hsave Hmissing Hfail).
  subst res; rewrite Hbody, Hsave; simpl.
  split; [reflexivity|]. split; [apply makedirs_files|].
  split; [intros dir; apply makedirs_new|]. split; [now exists pre|].
  apply raised_aborts; now rewrite Hbody, Hsave.
Qed.

Lemma makedirs_failure_escapes_witness :
  raised (process_repository
            (Sample.world_sub_denied (Example.document "{}" (PDict Example.mit))
               (Example.html 200 "# Hello"))
            "out/sub" None "octocat/Hello-World" Example.st0)
  = Some Sample.denied.
Proof.
  apply (makedirs_failure_escapes
           (Sample.world_sub_denied (Example.document "{}" (PDict Example.mit))
              (Example.html 200 "# Hello"))
           "out/sub" None "octocat/Hello-World" "octocat" "Hello-World" Example.st0
           {| status_code := 200; text := "{}"; json := inr (PDict Example.mit) |}
           Example.mit [("key", PStr "mit"); ("name", PStr "MIT License")]
           "MIT License"
           {| status_code := 200; text := "# Hello";
              json := inl (Exn JSONDecodeError "Expecting value") |}
           Sample.denied
           eq_refl eq_refl eq_refl eq_refl eq_refl eq_refl eq_refl eq_refl eq_refl
           ltac:(discriminate) eq_refl eq_refl).
Defined.

(** In that run [os.makedirs] has made the parent [out] before [out/sub]
    is refused: the parent stays, next to no file, and the second entry is
    never requested. *)
Example makedirs_leaves_parents :
  let res := process_repositories
               (Sample.world_sub_denied (Example.document "{}" (PDict Example.mit))
                  (Example.html 200 "# Hello"))
               ["octocat/Hello-World"; "octocat/Spoon-Knife"] "out/sub" None
               Example.st0 in
  raised res = Some Sample.denied
  /\ path_exists "out" (st_fs (final res)) = true
  /\ path_exists "out/sub" (st_fs (final res)) = false
  /\ files (st_fs (final res)) = ∅
  /\ List.map url (st_sent (final res))
     = ["https://api.github.com/repos/octocat/Hello-World";
        "https://raw.githubusercontent.com/octocat/Hello-World/main/README.md"].
Proof. vm_compute; repeat split; reflexivity. Qed.

(** With the directory in place [save_readme] always returns, whatever the
    disk does: it creates no directory and logs exactly one record, the
    success at info level or the failure at error level. *)
Theorem save_readme_returns_in_existing_directory E content filename directory s :
  path_exists directory (st_fs s) = true ->
  let res := save_readme E content filename directory s in
  raised res = None
  /\ dirs (st_fs (final res)) = dirs (st_fs s)
  /\ path_exists directory (st_fs (final res)) = true
  /\ (st_log (final res)
      = st_log s ++ [(INFO, "README.md saved: " +:+ file_path directory filename)]
      \/ exists e,
           st_log (final res)
           = st_log s ++ [(ERROR, "Failed to save README.md file "
                                  +:+ file_path directory filename
                                  +:+ ". Error: " +:+ exn_msg e)]).
Proof.
  intros Hthere res; subst res; unfold save_readme; run.
  rewrite Hthere; simpl.
  destruct (open_write _ _ _ _); simpl; repeat split;
    eauto using path_exists_set_file.
Qed.

Lemma save_readme_returns_in_existing_directory_witness :
  raised (save_readme
            (Sample.world_read_only Example.unreachable Example.unreachable)
            "# Hello" "Hello-World" "output"
            (with_fs (add_dir "output" (st_fs Example.st0)) Example.st0)) = None.
Proof.
  apply (save_readme_returns_in_existing_directory
           (Sample.world_read_only Example.unreachable Example.unreachable)
           "# Hello" "Hello-World" "output"
           (with_fs (add_dir "output" (st_fs Example.st0)) Example.st0)).
  reflexivity.
Defined.

(** A write that succeeds: [save_readme] returns, the file at [file_path]
    holds the content whatever it held before, the directory exists
    afterwards, and the log gains the success record and no error. *)
Theorem save_readme_writes E content filename directory s :
  directory_ok E directory (st_fs s) ->
  open_write E (ready directory (st_fs s)) (file_path directory filename) content
  = Written ->
  let res := save_readme E content filename directory s in
  raised res = None
  /\ files (st_fs (final res))
     = <[file_path directory filename := content]> (files (st_fs s))
  /\ files (st_fs (final res)) !! file_path directory filename = Some content
  /\ path_exists directory (st_fs (final res)) = true
  /\ (exists new,
        st_log (final res) = st_log s ++ new
        /\ at_level INFO new
           = ["README.md saved: " +:+ file_path directory filename]
        /\ at_level WARNING new = [] /\ at_level ERROR new = []).
Proof.
  intros Hdir Hw res; subst res; unfold save_readme; run.
  unfold directory_ok in Hdir; unfold ready in Hw.
  destruct (path_exists directory (st_fs s)) eqn:Hthere; simpl.
  - rewrite Hw; simpl; repeat split; eauto using path_exists_set_file.
    apply lookup_insert_eq.
  - create Hdir. rewrite Hw; simpl.
    rewrite <- app_assoc, made_files; repeat split;
      eauto using path_exists_set_file, path_exists_made.
    apply lookup_insert_eq.
Qed.

Lemma save_readme_writes_witness :
  files (st_fs (final (save_readme
                         (Example.world Example.unreachable Example.unreachable Written)
                         "# Hello" "docs/Hello" "output" Example.st0)))
  !! "output/docs_Hello.md" = Some "# Hello".
Proof.
  apply (save_readme_writes
           (Example.world Example.unreachable Example.unreachable Written)
           "# Hello" "docs/Hello" "output" Example.st0).
  - intros _; reflexivity.
  - reflexivity.
Defined.

(** *** Reading an entry *)

Section Entries.
Implicit Types (s : string) (c : ascii).

Lemma rstrip_idempotent s : rstrip (rstrip s) = rstrip s.
Proof.
  induction s as [|c s IH]; simpl; [reflexivity|].
  destruct (rstrip s) as [|a r] eqn:Hr.
  - destruct (is_space c) eqn:Hc; simpl; [reflexivity|now rewrite Hc].
  - simpl in *; now rewrite IH.
Qed.

Lemma lstrip_head s :
  lstrip s = "" \/ exists c t, lstrip s = String c t /\ is_space c = false.
Proof.
  induction s as [|c s IH]; simpl; [now left|].
  destruct (is_space c) eqn:Hc; [assumption|right; eauto].
Qed.

Lemma rstrip_head c s :
  is_space c = false -> exists t, rstrip (String c s) = String c t.
Proof.
  intros Hc; simpl; destruct (rstrip s); [rewrite Hc|]; eauto.
Qed.

(** Stripping twice is stripping once. *)
Lemma strip_idempotent s : strip (strip s) = strip s.
Proof.
  unfold strip.
  destruct (lstrip_head s) as [->|(c & t & -> & Hc)]; [reflexivity|].
  destruct (rstrip_head c t Hc) as (t' & Ht').
  rewrite Ht' at 1; simpl lstrip; rewrite Hc, <- Ht'.
  apply rstrip_idempotent.
Qed.

Lemma split_char_cons sep s : exists h t, split_char sep s = h :: t.
Proof.
  pose proof (split_char_length sep s) as Hlen.
  destruct (split_char sep s) as [|h t]; [discriminate|eauto].
Qed.

Lemma join_cons sep h t :
  t <> [] -> join sep (h :: t) = h +:+ sep +:+ join sep t.
Proof. destruct t; [congruence|reflexivity]. Qed.

(** Joining the parts of a split gives the string back. *)
Lemma join_split sep s :
  join (String sep "") (split_char sep s) = s.
Proof.
  induction s as [|c s IH]; simpl; [reflexivity|].
  destruct (split_char_cons sep s) as (h & t & Hs); rewrite Hs in *.
  destruct (Ascii.eqb_spec c sep) as [->|Hne].
  - rewrite join_cons by discriminate. now rewrite IH.
  - destruct t as [|h' t].
    + simpl in *; now rewrite IH.
    + rewrite join_cons in * by discriminate.
      now rewrite <- IH.
Qed.

End Entries.

(** White space around an entry does not count: a list of entries and the
    list of the stripped entries give the same run. *)
Theorem surrounding_whitespace_ignored E repos output_dir token s :
  process_repositories E (List.map strip repos) output_dir token s
  = process_repositories E repos output_dir token s.
Proof.
  revert s; induction repos as [|full_repo rest IH]; intros s; [reflexivity|].
  simpl; unfold mbind, M_bind.
  assert (Hbody : process_repository E output_dir token (strip full_repo) s
                  = process_repository E output_dir token full_repo s).
  { unfold process_repository; now rewrite strip_idempotent. }
  rewrite Hbody.
  destruct (process_repository E output_dir token full_repo s); [apply IH|reflexivity].
Qed.

(** The metadata address of a well-formed entry is the API address followed
    by the stripped entry as it stands, and that request is the first thing
    the body sends, whatever comes after. *)
Theorem metadata_url_is_entry E output_dir token full_repo owner repo s :
  split_char "/" (strip full_repo) = [owner; repo] ->
  let res := process_repository E output_dir token full_repo s in
  strip full_repo = owner +:+ "/" +:+ repo
  /\ url (info_request owner repo token) = GITHUB_API_URL +:+ strip full_repo
  /\ exists more,
       st_sent (final res) = st_sent s ++ info_request owner repo token :: more.
Proof.
  intros Hsplit res.
  assert (Hjoin : strip full_repo = owner +:+ "/" +:+ repo).
  { rewrite <- (join_split "/" (strip full_repo)) at 1; now rewrite Hsplit. }
  split; [assumption|split; [now rewrite Hjoin|]].
  destruct (body_sent E output_dir token full_repo s)
    as [[Hnot _]|(owner' & repo' & Hsplit' & H)].
  - rewrite Hsplit in Hnot; now destruct Hnot.
  - rewrite Hsplit in Hsplit'; injection Hsplit' as <- <-.
    destruct H as [H|(branch & H)]; eexists; exact H.
Qed.

Lemma metadata_url_is_entry_witness :
  url (info_request "octocat" "Hello-World" None)
  = GITHUB_API_URL +:+ strip "  octocat/Hello-World ".
Proof.
  apply (metadata_url_is_entry
           (Example.world Example.unreachable Example.unreachable Written)
           "output" None "  octocat/Hello-World " "octocat" "Hello-World"
           Example.st0).
  reflexivity.
Defined.

(** *** Lists of entries *)

(** A list in two pieces is run piece by piece: the second piece starts in
    the state the first one leaves, and is not run at all when the first
    one ends on an exception. *)
Theorem run_append E repos1 repos2 output_dir token s :
  process_repositories E (repos1 ++ repos2) output_dir token s
  = match process_repositories E repos1 output_dir token s with
    | Val _ s1 => process_repositories E repos2 output_dir token s1
    | Raise e s1 => Raise e s1
    end.
Proof.
  revert s; induction repos1 as [|full_repo rest IH]; intros s; [reflexivity|].
  simpl; unfold mbind, M_bind.
  destruct (process_repository E output_dir token full_repo s); [apply IH|reflexivity].
Qed.

(** *** The output directory *)

Lemma path_exists_extends directory s s' :
  extends s s' ->
  path_exists directory (st_fs s) = true ->
  path_exists directory (st_fs s') = true.
Proof.
  intros (_ & _ & Hdirs & Hfiles) H; unfold path_exists in *.
  apply orb_true_iff in H; apply orb_true_iff.
  destruct H as [H|H]; apply bool_decide_eq_true in H; [left|right];
    apply bool_decide_eq_true; auto.
Qed.

Lemma save_readme_ignores_makedirs E f content filename directory s :
  path_exists directory (st_fs s) = true ->
  save_readme (with_makedirs E f) content filename directory s
  = save_readme E content filename directory s.
Proof.
  intros H; unfold save_readme; run. now rewrite H.
Qed.

Lemma body_ignores_makedirs E f output_dir token full_repo s :
  path_exists output_dir (st_fs s) = true ->
  process_repository (with_makedirs E f) output_dir token full_repo s
  = process_repository E output_dir token full_repo s.
Proof.
  intros H. body_cases Hsplit; try reflexivity.
  all: now apply save_readme_ignores_makedirs.
Qed.

(** Once the output directory exists, a run never calls [os.makedirs]:
    whatever that call would answer, the run is the same. *)
Theorem existing_directory_never_created E f repos output_dir token s :
  path_exists output_dir (st_fs s) = true ->
  process_repositories (with_makedirs E f) repos output_dir token s
  = process_repositories E repos output_dir token s.
Proof.
  revert s; induction repos as [|full_repo rest IH]; intros s H; [reflexivity|].
  simpl; unfold mbind, M_bind.
  rewrite (body_ignores_makedirs E f output_dir token full_repo s H).
  pose proof (body_extends E output_dir token full_repo s) as Hext.
  destruct (process_repository E output_dir token full_repo s) as [[] s1|e s1];
    [|reflexivity].
  apply IH. now apply (path_exists_extends output_dir s s1).
Qed.

Lemma existing_directory_never_created_witness :
  process_repositories
    (with_makedirs
       (Example.world (Example.document "{}" (PDict Example.mit))
          (Example.html 200 "# Hello") Written)
       (fun _ _ => Some Sample.read_only))
    ["octocat/Hello-World"] "output" None
    (with_fs (add_dir "output" (st_fs Example.st0)) Example.st0)
  = process_repositories
      (Example.world (Example.document "{}" (PDict Example.mit))
         (Example.html 200 "# Hello") Written)
      ["octocat/Hello-World"] "output" None
      (with_fs (add_dir "output" (st_fs Example.st0)) Example.st0).
Proof.
  apply (existing_directory_never_created
           (Example.world (Example.document "{}" (PDict Example.mit))
              (Example.html 200 "# Hello") Written)
           (fun _ _ => Some Sample.read_only)
           ["octocat/Hello-World"] "output" None
           (with_fs (add_dir "output" (st_fs Example.st0)) Example.st0)).
  reflexivity.
Defined.

(** *** The log of a repository that is saved *)

Section Saved.
Context (E : env) (output_dir : string) (token : option string).
Context (full_repo owner repo : string) (s : state).
Context (r : response) (d l : list (string * value)) (name : string).
Context (rd : response).

(** The entry is well formed, its metadata passes the license gate, its
    README comes with status 200 and a text that is not empty, the output
    directory is there or can be created, and the write succeeds. *)
Hypothesis Hsplit : split_char "/" (strip full_repo) = [owner; repo].
Hypothesis Hinfo :
  requests_get E (st_sent s) (info_request owner repo token) = Responded r.
Hypothesis Hstatus : status_code r = 200.
Hypothesis Hjson : json r = inr (PDict d).
Hypothesis Hlicense : dict_lookup "license" d = Some (PDict l).
Hypothesis Hname : dict_lookup "name" l = Some (PStr name).
Hypothesis Hallowed : license_allowed name = true.
Hypothesis Hreadme :
  requests_get E (st_sent s ++ [info_request owner repo token])
    (readme_request owner repo (default_branch d) token) = Responded rd.
Hypothesis Hreadme_status : status_code rd = 200.
Hypothesis Htext : text rd <> "".
Hypothesis Hdir : directory_ok E output_dir (st_fs s).
Hypothesis Hwrite :
  open_write E (ready output_dir (st_fs s))
    (path_join output_dir (repo +:+ ".md")) (text rd) = Written.

(** The log of a saved repository tells the three successes at info level,
    in order, and holds no warning and no error; two requests were sent. *)
Theorem saved_repository_log :
  let res := process_repository E output_dir token full_repo s in
  st_sent (final res)
  = st_sent s ++ [info_request owner repo token;
                  readme_request owner repo (default_branch d) token]
  /\ exists new,
       st_log (final res) = st_log s ++ new
       /\ at_level INFO new
          = ["Successfully fetched data for repository: " +:+ owner +:+ "/" +:+ repo;
             "Successfully downloaded README.md for repository: "
             +:+ owner +:+ "/" +:+ repo;
             "README.md saved: " +:+ path_join output_dir (repo +:+ ".md")]
       /\ at_level WARNING new = []
       /\ at_level ERROR new = [].
Proof.
  intros res; subst res.
  assert (Hpath : file_path output_dir repo = path_join output_dir (repo +:+ ".md")).
  { unfold file_path, sanitize.
    destruct (split_two _ _ _ Hsplit) as (_ & _ & Hrepo).
    now rewrite (replace_char_absent _ _ _ Hrepo). }
  enter Hsplit; rewrite Hinfo, Hstatus; simpl; rewrite Hjson; simpl.
  rewrite (truthy_dict _ _ _ Hlicense), Hlicense; simpl.
  rewrite (truthy_dict _ _ _ Hname), Hname; simpl.
  pose proof Hallowed as Hok; unfold license_allowed in Hok; rewrite Hok; simpl.
  fold (default_branch d); unfold download_readme; run.
  rewrite Hreadme, Hreadme_status; simpl.
  destruct (text rd) as [|c t] eqn:Ht; [congruence|].
  unfold save_readme; run. rewrite Hpath.
  unfold directory_ok in Hdir; unfold ready in Hwrite.
  destruct (path_exists output_dir (st_fs s)); simpl.
  - rewrite Hwrite; simpl. finish.
  - create Hdir. rewrite Hwrite; simpl. finish.
Qed.

End Saved.

Lemma saved_repository_log_witness :
  st_sent (final (process_repository
                    (Example.world (Example.document "{}" (PDict Example.mit))
                       (Example.html 200 "# Hello") Written)
                    "output" None "octocat/Hello-World" Example.st0))
  = st_sent Example.st0
    ++ [info_request "octocat" "Hello-World" None;
        readme_request "octocat" "Hello-World" (default_branch Example.mit) None].
Proof.
  apply (saved_repository_log
           (Example.world (Example.document "{}" (PDict Example.mit))
              (Example.html 200 "# Hello") Written)
           "output" None "octocat/Hello-World" "octocat" "Hello-World" Example.st0
           {| status_code := 200; text := "{}"; json := inr (PDict Example.mit) |}
           Example.mit [("key", PStr "mit"); ("name", PStr "MIT License")]
           "MIT License"
           {| status_code := 200; text := "# Hello";
              json := inl (Exn JSONDecodeError "Expecting value") |}
           eq_refl eq_refl eq_refl eq_refl eq_refl eq_refl eq_refl
           eq_refl eq_refl).
  - discriminate.
  - intros _; reflexivity.
  - reflexivity.
Defined.

(** *** Entries that are not of the form owner/repo *)

Lemma save_readme_same_world E content filename directory s t :
  same_world s t ->
  raised (save_readme E content filename directory s)
  = raised (save_readme E content filename directory t)
  /\ same_world (final (save_readme E content filename directory s))
       (final (save_readme E content filename directory t)).
Proof.
  destruct s as [lg1 q1 fs1], t as [lg2 q2 fs2]; intros [Hq Hfs]; simpl in *; subst.
  unfold save_readme, same_world; run.
  destruct (path_exists directory fs2); simpl;
    [|destruct (makedirs _ _ _) as [[e|] fs1]; simpl];
    try destruct (open_write _ _ _ _); simpl; auto.
Qed.

Lemma body_same_world E output_dir token full_repo s t :
  same_world s t ->
  raised (process_repository E output_dir token full_repo s)
  = raised (process_repository E output_dir token full_repo t)
  /\ same_world (final (process_repository E output_dir token full_repo s))
       (final (process_repository E output_dir token full_repo t)).
Proof.
  destruct s as [lg1 q1 fs1], t as [lg2 q2 fs2]; intros [Hq Hfs]; simpl in *; subst.
  body_cases Hsplit.
  all: try (apply save_readme_same_world; split; reflexivity).
  all: split; [reflexivity|split; reflexivity].
Qed.

Lemma malformed_body E output_dir token full_repo s :
  well_formed full_repo = false ->
  exists entry,
    process_repository E output_dir token full_repo s = Val tt (add_log [entry] s).
Proof.
  unfold well_formed, process_repository; intros H.
  destruct (String.eqb (strip full_repo) ""); [eauto|].
  destruct (split_char "/" (strip full_repo)) as [|a [|b [|c l]]];
    try discriminate; eauto.
Qed.

Lemma run_filter_same_world E output_dir token repos :
  forall s t,
    same_world s t ->
    raised (process_repositories E repos output_dir token s)
    = raised (process_repositories E (List.filter well_formed repos)
                output_dir token t)
    /\ same_world (final (process_repositories E repos output_dir token s))
         (final (process_repositories E (List.filter well_formed repos)
                   output_dir token t)).
Proof.
  induction repos as [|x rest IH]; intros s t Hst; [now split|].
  simpl List.filter. destruct (well_formed x) eqn:Hx.
  - destruct (body_same_world E output_dir token x s t Hst) as [Hr Hw].
    simpl; unfold mbind, M_bind.
    destruct (process_repository E output_dir token x s) as [[] s1|e s1],
             (process_repository E output_dir token x t) as [[] t1|e' t1];
      simpl in *; try discriminate; [now apply IH|now split].
  - destruct (malformed_body E output_dir token x s Hx) as (entry & Hbody).
    simpl; unfold mbind, M_bind; rewrite Hbody.
    apply IH. exact Hst.
Qed.

(** Blank and malformed entries cost a log record and nothing else: the
    run of a list and the run of its well-formed entries send the same
    requests, leave the same file system and end the same way. *)
Theorem malformed_entries_only_logged E repos output_dir token s :
  let all := process_repositories E repos output_dir token s in
  let kept := process_repositories E (List.filter well_formed repos)
                output_dir token s in
  raised all = raised kept
  /\ st_sent (final all) = st_sent (final kept)
  /\ st_fs (final all) = st_fs (final kept).
Proof.
  cbv zeta.
  destruct (run_filter_same_world E output_dir token repos s s) as (Hr & Hsent & Hfs);
    [split; reflexivity|auto].
Qed.

(** ** Properties of the start-up *)

Import Startup.

Section Levels.

Lemma in_all_ascii c : In c all_ascii.
Proof.
  unfold all_ascii; rewrite <- (ascii_nat_embedding c).
  apply in_map, in_seq; pose proof (nat_ascii_bounded c); lia.
Qed.

Lemma upper_agrees_everywhere :
  forallb (fun c => forallb (upper_agrees c) capitals) all_ascii = true.
Proof. vm_compute; reflexivity. Qed.

Lemma upper_of_capital c a :
  In a capitals -> lower_char c = lower_char a -> upper_char c = [code a].
Proof.
  intros Ha Hlow.
  pose proof upper_agrees_everywhere as Hall.
  rewrite forallb_forall in Hall; specialize (Hall c (in_all_ascii c)).
  rewrite forallb_forall in Hall; specialize (Hall a Ha).
  unfold upper_agrees in Hall; rewrite Hlow, Ascii.eqb_refl in Hall.
  now apply bool_decide_eq_true in Hall.
Qed.

Fixpoint all_capitals (s : string) : Prop :=
  match s with
  | EmptyString => True
  | String a s' => In a capitals /\ all_capitals s'
  end.

Lemma upper_of_same_letters name :
  all_capitals name ->
  forall x, same_letters x name -> upper x = codes name.
Proof.
  unfold same_letters, lower.
  induction name as [|a name IH]; intros Hcap [|c x] Hsame; simpl in *;
    try discriminate; [reflexivity|].
  destruct Hcap as [Ha Hcap]; injection Hsame as Hc Hx.
  now rewrite (upper_of_capital c a Ha Hc), (IH Hcap x Hx).
Qed.

Lemma level_names_capital name n : In (name, n) LEVELS -> all_capitals name.
Proof.
  unfold LEVELS; simpl; intros H.
  repeat (destruct H as [H|H]; [injection H as <- <-; vm_compute; tauto|]).
  destruct H.
Qed.

Lemma level_names_distinct name n :
  In (name, n) LEVELS -> int_attribute (codes name) LEVELS = Some n.
Proof.
  unfold LEVELS; simpl In; intros H.
  repeat (destruct H as [H|H]; [injection H as <- <-; vm_compute; reflexivity|]).
  destruct H.
Qed.

End Levels.

(** A level name is taken in any letter case: a string that agrees with one
    of the eight level names up to the case of its letters configures the
    logger as that name in capitals does, and the logger's level afterwards
    is the level's number, even if a later step of the call fails. *)
Theorem level_names_any_case H log_level name n p :
  In (name, n) LEVELS ->
  same_letters log_level name ->
  configure_logger H log_level p = configure_logger H name p
  /\ level (logger (after (configure_logger H log_level p))) = n.
Proof.
  intros Hin Hsame.
  assert (Hx : int_attribute (upper log_level) LEVELS = Some n).
  { rewrite (upper_of_same_letters name (level_names_capital name n Hin) _ Hsame).
    now apply level_names_distinct. }
  assert (Hn : int_attribute (upper name) LEVELS = Some n).
  { rewrite (upper_of_same_letters name (level_names_capital name n Hin) name eq_refl).
    now apply level_names_distinct. }
  unfold configure_logger; rewrite Hx, Hn; split; [reflexivity|].
  destruct (makedirs_exist_ok _ _ _); simpl; [reflexivity|].
  destruct (open_log_error _ _ _); reflexivity.
Qed.

Lemma level_names_any_case_witness :
  level (logger (after (configure_logger working "Debug" fresh))) = 10.
Proof.
  apply (level_names_any_case working "Debug" "DEBUG" 10 fresh).
  - unfold LEVELS; simpl; tauto.
  - reflexivity.
Defined.

(** A call that returns leaves the logger with exactly the two handlers it
    has just made, so a second call that returns leaves the same logger:
    handlers do not pile up. *)
Theorem configure_logger_twice H H' log_level p p1 p2 :
  configure_logger H log_level p = Done p1 ->
  configure_logger H' log_level p1 = Done p2 ->
  logger p2 = logger p1
  /\ handlers (logger p1)
     = [RotatingFileHandler "logs/cazira.log" 5242880 5
          (Some "%(asctime)s - %(levelname)s - %(message)s");
        StreamHandler (Some "%(asctime)s - %(levelname)s - %(message)s")].
Proof.
  unfold configure_logger.
  destruct (int_attribute (upper log_level) LEVELS) as [n|]; [|discriminate].
  destruct (makedirs_exist_ok (host_env H) _ _) as [e|fs]; [discriminate|].
  destruct (open_log_error H _ _); [discriminate|].
  intros [= <-]; simpl.
  destruct (makedirs_exist_ok (host_env H') _ _) as [e|fs']; [discriminate|].
  destruct (open_log_error H' _ _); [discriminate|].
  intros [= <-]; split; reflexivity.
Qed.

Lemma configure_logger_twice_witness :
  logger (after (configure_logger working "INFO"
                   (after (configure_logger working "INFO" fresh))))
  = logger (after (configure_logger working "INFO" fresh)).
Proof.
  apply (configure_logger_twice working working "INFO" fresh
           (after (configure_logger working "INFO" fresh))
           (after (configure_logger working "INFO"
                     (after (configure_logger working "INFO" fresh)))));
    reflexivity.
Defined.

(** What a call can touch: it logs nothing and sends nothing, it creates
    no directory but [logs], a call that is refused for its level name
    changes nothing at all, and a call that ends on any exception leaves
    the handlers as they were. *)
Theorem configure_logger_effects H log_level p :
  let o := configure_logger H log_level p in
  st_log (world (after o)) = st_log (world p)
  /\ st_sent (world (after o)) = st_sent (world p)
  /\ dirs (st_fs (world p)) ⊆ dirs (st_fs (world (after o)))
  /\ dirs (st_fs (world (after o))) ⊆ {["logs"]} ∪ dirs (st_fs (world p))
  /\ (int_attribute (upper log_level) LEVELS = None ->
      o = Thrown (Exn ValueError ("Invalid log level: " +:+ log_level)) p)
  /\ (thrown o <> None -> handlers (logger (after o)) = handlers (logger p)).
Proof.
  intros o; subst o; unfold configure_logger, makedirs_exist_ok.
  destruct (int_attribute (upper log_level) LEVELS) as [n|]; simpl.
  - destruct (bool_decide ("logs" ∈ dirs (st_fs (world p)))); simpl.
    + destruct (open_log_error _ _ _); simpl; repeat split;
        try discriminate; try reflexivity; try apply union_subseteq_r;
        intros Hno; now destruct Hno.
    + destruct (makedirs_error _ _ _); simpl;
        [|destruct (open_log_error _ _ _); simpl]; repeat split;
        try discriminate; try reflexivity;
        try apply union_subseteq_r; try (intros Hno; now destruct Hno).
  - repeat split; try reflexivity; apply union_subseteq_r.
Qed.
